(** * music-recommendation: the emotion endpoint of [app.py]

    A shallow embedding of [detect_emotion] and [get_spotify_playlists]
    (src/music-recommendation/app.py) and of the Python built-ins they use,
    followed by the properties of the specification that concern them.

    Python values are modelled as follows.
    - [str] is a list of Unicode code points, as a Python 3 string is.
    - [float] is Rocq's primitive binary64 float, with Python's comparison
      operators read as [PrimFloat.ltb], [PrimFloat.leb] and [PrimFloat.eqb].
    - a [dict] is an association list in insertion order (the order in which
      Python iterates it, on which [max] breaks ties).
    - the collaborators the handler calls (str.lower, text2emotion, DeepFace with
      the image decoding in front of it, the Spotify client) are variables of
      the section [Handler]. *)

From Stdlib Require Import List String Ascii Bool Arith NArith ZArith Lia.
From Stdlib Require Import Floats.
Import ListNotations.

Set Warnings "-inexact-float".

(** ** Python built-ins *)

Module Py.

Definition codepoint := N.
Definition str := list codepoint.

(** Decoder of the UTF-8 bytes of a string literal of this file, so that the
    tables below can be written as in the source. *)
Fixpoint utf8 (bs : list N) : str :=
  match bs with
  | [] => []
  | b0 :: r0 =>
    if (b0 <? 128)%N then b0 :: utf8 r0
    else if (b0 <? 224)%N then
      match r0 with
      | b1 :: r1 => ((b0 mod 32) * 64 + b1 mod 64)%N :: utf8 r1
      | [] => []
      end
    else if (b0 <? 240)%N then
      match r0 with
      | b1 :: b2 :: r2 =>
        ((b0 mod 16) * 4096 + (b1 mod 64) * 64 + b2 mod 64)%N :: utf8 r2
      | _ => []
      end
    else
      match r0 with
      | b1 :: b2 :: b3 :: r3 =>
        ((b0 mod 8) * 262144 + (b1 mod 64) * 4096 + (b2 mod 64) * 64 + b3 mod 64)%N
          :: utf8 r3
      | _ => []
      end
  end.

Definition u (s : string) : str :=
  utf8 (map N_of_ascii (list_ascii_of_string s)).

Fixpoint str_eqb (a b : str) : bool :=
  match a, b with
  | [], [] => true
  | x :: a', y :: b' => (x =? y)%N && str_eqb a' b'
  | _, _ => false
  end.

(** [bool(s)] for a string: the empty string is falsy. *)
Definition nonempty (s : str) : bool :=
  match s with [] => false | _ :: _ => true end.

(** [bool(x)] for a variable holding [None] or a string. *)
Definition truthy (x : option str) : bool :=
  match x with None => false | Some s => nonempty s end.

(** The code points [str.strip()] removes (Py_UNICODE_ISSPACE). *)
Definition isspace (c : codepoint) : bool :=
  ((9 <=? c) && (c <=? 13) || (28 <=? c) && (c <=? 32)
   || (c =? 133) || (c =? 160) || (c =? 5760)
   || (8192 <=? c) && (c <=? 8202)
   || (c =? 8232) || (c =? 8233) || (c =? 8239) || (c =? 8287)
   || (c =? 12288))%N.

Fixpoint lstrip (s : str) : str :=
  match s with
  | [] => []
  | c :: r => if isspace c then lstrip r else s
  end.

Definition rstrip (s : str) : str := rev (lstrip (rev s)).

Definition strip (s : str) : str := rstrip (lstrip s).

(** [t.startswith(k)] and [k in t] for strings. *)
Fixpoint startswith (k t : str) : bool :=
  match k, t with
  | [], _ => true
  | _ :: _, [] => false
  | a :: k', b :: t' => (a =? b)%N && startswith k' t'
  end.

Fixpoint contains (k t : str) : bool :=
  startswith k t || match t with [] => false | _ :: t' => contains k t' end.

(** [re.search(r'[\u0900-\u097F]', t)] as a boolean. *)
Definition devanagari (c : codepoint) : bool :=
  ((2304 <=? c) && (c <=? 2431))%N.

Definition has_devanagari (t : str) : bool := existsb devanagari t.

(** Dictionaries with string keys, in insertion order. *)
Definition dict (V : Type) := list (str * V).

Fixpoint get {V} (d : dict V) (k : str) : option V :=
  match d with
  | [] => None
  | (k', v) :: r => if str_eqb k' k then Some v else get r k
  end.

(** [d.get(k, default)]. *)
Definition get_or {V} (d : dict V) (k : str) (default : V) : V :=
  match get d k with Some v => v | None => default end.

Definition keys {V} (d : dict V) : list str := map fst d.
Definition values {V} (d : dict V) : list V := map snd d.

(** [max(d, key=d.get)]: Python keeps the first item and replaces it only by
    a strictly greater one. [argmax_from] is the loop over the remaining
    items; [argmax] is [None] on the empty dict, where Python raises (every
    call of the source is guarded by the dict's truth value). The key found
    is returned with its value [d[key]]. *)
Fixpoint argmax_from {V} (gt : V -> V -> bool) (best : str * V) (d : dict V)
  : str * V :=
  match d with
  | [] => best
  | (k, v) :: r => argmax_from gt (if gt v (snd best) then (k, v) else best) r
  end.

Definition argmax {V} (gt : V -> V -> bool) (d : dict V) : option (str * V) :=
  match d with
  | [] => None
  | kv :: r => Some (argmax_from gt kv r)
  end.

Definition int_gt (a b : nat) : bool := b <? a.
Definition float_gt (a b : float) : bool := (b <? a)%float.

(** [max(xs)] over floats, with a first element. *)
Definition float_max (x : float) (xs : list float) : float :=
  fold_left (fun best v => if float_gt v best then v else best) xs x.

(** [min(a, b)]: [b] only when it is strictly smaller. *)
Definition float_min (a b : float) : float :=
  if (b <? a)%float then b else a.

(** [bool(x)] for a float: everything but zero. *)
Definition float_truthy (x : float) : bool := negb (x =? 0)%float.

(** Conversion of a (small) Python int to float. *)
Definition float_of_int (n : nat) : float :=
  PrimFloat.of_uint63 (Uint63.of_Z (Z.of_nat n)).

(** What [str.lower] does on the ASCII letters. *)
Definition lower_ascii_cp (c : codepoint) : codepoint :=
  if ((65 <=? c) && (c <=? 90))%N then (c + 32)%N else c.

Definition lower_ascii (s : str) : str := map lower_ascii_cp s.

Definition is_ascii (s : str) : bool := forallb (fun c => (c <? 128)%N) s.

End Py.

Import Py.

(** ** Data of the endpoint *)

(** A playlist descriptor, as [get_spotify_playlists] builds it. *)
Record playlist := { name : str; url : str; image : option str }.

(** The JSON object posted to /detect_emotion: [data], with its two optional
    string fields. *)
Record request := { req_image : option str; req_text : option str }.

(** The JSON object of a 200 answer (lines 210-221). *)
Record body := {
  r_emotion : str;
  r_mood : str;
  r_language : str;
  r_playlists : list playlist;
  r_method : option str;
  r_confidence : float;
  r_facial_emotion : option str;
  r_facial_confidence : float;
  r_text_emotion : option str;
  r_text_confidence : float }.

(** What the handler produces: a 200 answer, a 400 answer with its [error]
    message (and, on line 171, the exception and its trace), or an exception
    that leaves the handler, which Flask turns into a 500. *)
Inductive response :=
| Ok200 (b : body)
| Err400 (error : str) (debug : option (str * str))
| Crash500 (exception : str).

(** [te.get_emotion]: a dict of scores, or an exception with its trace. *)
Inductive te_result :=
| TeRaises (exception trace : str)
| TeScores (text_emotions : dict float).

(** One result of [DeepFace.analyze]: a dict, of which the handler reads the
    entries 'emotion' and 'dominant_emotion' when they are there, or something
    that is not a dict. *)
Inductive analysis :=
| FaceDict (emotion : option (dict float)) (dominant_emotion : option str)
| NotDict.

Inductive deepface_result :=
| AsList (l : list analysis)
| AsOne (res : analysis).

(** Lines 70-77 for a given image string: an exception (base64, OpenCV or
    DeepFace), an image that does not decode, or the analysis. *)
Inductive vision :=
| VisionRaises
| ImgNone
| Analyzed (result : deepface_result).

(** An item of the catalog's search answer, and the answer. *)
Record item := { item_name : str; item_url : str; item_images : list str }.

Inductive search_result :=
| SearchRaises
| SearchItems (items : list item).

(** The local variables of [detect_emotion] that outlive a stage; [None] in
    [language] is the unbound variable. *)
Record locals := {
  facial_emotion : option str;
  facial_confidence : float;
  text_emotion : option str;
  text_confidence : float;
  detection_method : option str;
  language : option str }.

(** ** Tables of the source *)

(** Lines 28-43. *)
Definition emotion_to_mood : dict str :=
  [ (u "happy", u "happy");
    (u "sad", u "sad");
    (u "angry", u "energetic");
    (u "fear", u "calm");
    (u "surprise", u "excited");
    (u "neutral", u "chill");
    (u "disgust", u "dark");
    (u "joy", u "happy");
    (u "anticipation", u "excited");
    (u "trust", u "calm");
    (u "positive", u "happy");
    (u "negative", u "sad");
    (u "worry", u "calm");
    (u "love", u "romantic") ].

(** Lines 111-118: one table, each list holding the English and the Hindi
    keywords of its label. *)
Definition emotion_keywords : dict (list str) :=
  [ (u "happy",
     [ u "happy"; u "joy"; u "excited"; u "great"; u "wonderful";
       u "amazing"; u "fantastic"; u "love"; u "glad"; u "cheerful";
       u "delighted"; u "thrilled"; u "excellent"; u "good"; u "awesome";
       u "perfect"; u "खुश"; u "खुशी"; u "खुश हूँ"; u "मज़ा"; u "उत्साहित" ]);
    (u "sad",
     [ u "sad"; u "unhappy"; u "depressed"; u "lonely"; u "miserable";
       u "down"; u "blue"; u "disappointed"; u "upset"; u "hurt";
       u "heartbroken"; u "crying"; u "tears"; u "awful"; u "terrible";
       u "bad"; u "उदास"; u "दुख"; u "टूट"; u "दुखी" ]);
    (u "angry",
     [ u "angry"; u "mad"; u "furious"; u "irritated"; u "annoyed";
       u "frustrated"; u "rage"; u "pissed"; u "hate"; u "disgusted";
       u "outraged"; u "गुस्सा"; u "क्रोधित"; u "नाराज़" ]);
    (u "fear",
     [ u "scared"; u "afraid"; u "fear"; u "anxious"; u "worried";
       u "nervous"; u "terrified"; u "frightened"; u "panic"; u "डर";
       u "घबराहट"; u "डरा" ]);
    (u "surprise",
     [ u "surprised"; u "shocked"; u "amazed"; u "astonished"; u "wow";
       u "incredible"; u "unbelievable"; u "हैरान"; u "चकित" ]);
    (u "neutral",
     [ u "okay"; u "fine"; u "alright"; u "normal"; u "meh"; u "whatever";
       u "ठीक"; u "अच्छा"; u "सामान्य" ]) ].

(** Lines 230-246. *)
Definition sample_playlists_hi : dict (list playlist) :=
  [ (u "happy",
     [ {| name := u "Bollywood Happy Hits";
          url := u "https://open.spotify.com/playlist/37i9dQZF1DX2taZN6Kf4K1";
          image := Some (u "https://via.placeholder.com/300x300/FFD700/000000?text=Bollywood+Happy") |};
       {| name := u "Top Bollywood";
          url := u "https://open.spotify.com/playlist/37i9dQZF1DXcZ6X5YK6xG6";
          image := Some (u "https://via.placeholder.com/300x300/FF6B9D/000000?text=Top+Bollywood") |};
       {| name := u "Bollywood Retro";
          url := u "https://open.spotify.com/playlist/37i9dQZF1DX2yvmlOdMYzV";
          image := Some (u "https://via.placeholder.com/300x300/00D4FF/000000?text=Bollywood+Retro") |} ]);
    (u "sad",
     [ {| name := u "Bollywood Sad";
          url := u "https://open.spotify.com/playlist/37i9dQZF1DWSf2RDTDayIx";
          image := Some (u "https://via.placeholder.com/300x300/4169E1/FFFFFF?text=Bollywood+Sad") |};
       {| name := u "Sad Bollywood";
          url := u "https://open.spotify.com/playlist/37i9dQZF1DX7qK8ma5wgG1";
          image := Some (u "https://via.placeholder.com/300x300/708090/FFFFFF?text=Sad+Bollywood") |};
       {| name := u "Melancholic Bollywood";
          url := u "https://open.spotify.com/playlist/37i9dQZF1DWX83CujKHHOn";
          image := Some (u "https://via.placeholder.com/300x300/2F4F4F/FFFFFF?text=Melancholy+Bollywood") |} ]);
    (u "chill",
     [ {| name := u "Bollywood Mellow";
          url := u "https://open.spotify.com/playlist/37i9dQZF1DX889U0CL85jj";
          image := Some (u "https://via.placeholder.com/300x300/9370DB/000000?text=Bollywood+Chill") |};
       {| name := u "Indie Hindi Chill";
          url := u "https://open.spotify.com/playlist/37i9dQZF1DWWQRwui0ExPn";
          image := Some (u "https://via.placeholder.com/300x300/BA55D3/000000?text=Indie+Hindi") |};
       {| name := u "Romantic Bollywood";
          url := u "https://open.spotify.com/playlist/37i9dQZF1DX50QitC6Oqtn";
          image := Some (u "https://via.placeholder.com/300x300/FF1493/FFFFFF?text=Romantic+Bollywood") |} ]) ].

(** Lines 249-290. *)
Definition sample_playlists : dict (list playlist) :=
  [ (u "happy",
     [ {| name := u "Happy Hits";
          url := u "https://open.spotify.com/playlist/37i9dQZF1DXdPec7aLTmlC";
          image := Some (u "https://via.placeholder.com/300x300/FFD700/000000?text=Happy+Hits") |};
       {| name := u "Feel Good Indie";
          url := u "https://open.spotify.com/playlist/37i9dQZF1DX2sUQwD7tbmL";
          image := Some (u "https://via.placeholder.com/300x300/FF6B9D/000000?text=Feel+Good") |};
       {| name := u "Mood Booster";
          url := u "https://open.spotify.com/playlist/37i9dQZF1DX3rxVfibe1L0";
          image := Some (u "https://via.placeholder.com/300x300/00D4FF/000000?text=Mood+Booster") |} ]);
    (u "sad",
     [ {| name := u "Life Sucks";
          url := u "https://open.spotify.com/playlist/37i9dQZF1DX7qK8ma5wgG1";
          image := Some (u "https://via.placeholder.com/300x300/4169E1/FFFFFF?text=Sad+Songs") |};
       {| name := u "Sad Indie";
          url := u "https://open.spotify.com/playlist/37i9dQZF1DX59NCqCqJtoH";
          image := Some (u "https://via.placeholder.com/300x300/708090/FFFFFF?text=Sad+Indie") |};
       {| name := u "Melancholy";
          url := u "https://open.spotify.com/playlist/37i9dQZF1DWX83CujKHHOn";
          image := Some (u "https://via.placeholder.com/300x300/2F4F4F/FFFFFF?text=Melancholy") |} ]);
    (u "energetic",
     [ {| name := u "Beast Mode";
          url := u "https://open.spotify.com/playlist/37i9dQZF1DX76Wlfdnj7AP";
          image := Some (u "https://via.placeholder.com/300x300/FF4500/000000?text=Beast+Mode") |};
       {| name := u "Power Workout";
          url := u "https://open.spotify.com/playlist/37i9dQZF1DX70RN3TfWWJh";
          image := Some (u "https://via.placeholder.com/300x300/DC143C/000000?text=Power+Workout") |};
       {| name := u "Adrenaline";
          url := u "https://open.spotify.com/playlist/37i9dQZF1DX0pH2SQMRXnC";
          image := Some (u "https://via.placeholder.com/300x300/8B0000/FFFFFF?text=Adrenaline") |} ]);
    (u "calm",
     [ {| name := u "Peaceful Piano";
          url := u "https://open.spotify.com/playlist/37i9dQZF1DX4sWSpwq3LiO";
          image := Some (u "https://via.placeholder.com/300x300/87CEEB/000000?text=Peaceful+Piano") |};
       {| name := u "Calm Vibes";
          url := u "https://open.spotify.com/playlist/37i9dQZF1DWU0ScTcjJBdj";
          image := Some (u "https://via.placeholder.com/300x300/ADD8E6/000000?text=Calm+Vibes") |};
       {| name := u "Relaxing Sounds";
          url := u "https://open.spotify.com/playlist/37i9dQZF1DWZd79rJ6a7lp";
          image := Some (u "https://via.placeholder.com/300x300/B0E0E6/000000?text=Relaxing") |} ]);
    (u "excited",
     [ {| name := u "Party Time";
          url := u "https://open.spotify.com/playlist/37i9dQZF1DXaXB8fQg7xif";
          image := Some (u "https://via.placeholder.com/300x300/FF1493/000000?text=Party+Time") |};
       {| name := u "Dance Party";
          url := u "https://open.spotify.com/playlist/37i9dQZF1DX4dyzvuaRJ0n";
          image := Some (u "https://via.placeholder.com/300x300/FF69B4/000000?text=Dance+Party") |};
       {| name := u "Energy Boost";
          url := u "https://open.spotify.com/playlist/37i9dQZF1DX3Sp0P28SIer";
          image := Some (u "https://via.placeholder.com/300x300/FFB6C1/000000?text=Energy+Boost") |} ]);
    (u "chill",
     [ {| name := u "Chill Hits";
          url := u "https://open.spotify.com/playlist/37i9dQZF1DX4WYpdgoIcn6";
          image := Some (u "https://via.placeholder.com/300x300/9370DB/000000?text=Chill+Hits") |};
       {| name := u "Lofi Beats";
          url := u "https://open.spotify.com/playlist/37i9dQZF1DWWQRwui0ExPn";
          image := Some (u "https://via.placeholder.com/300x300/BA55D3/000000?text=Lofi+Beats") |};
       {| name := u "Chill Vibes";
          url := u "https://open.spotify.com/playlist/37i9dQZF1DX889U0CL85jj";
          image := Some (u "https://via.placeholder.com/300x300/DDA0DD/000000?text=Chill+Vibes") |} ]);
    (u "romantic",
     [ {| name := u "Romantic";
          url := u "https://open.spotify.com/playlist/37i9dQZF1DX50QitC6Oqtn";
          image := Some (u "https://via.placeholder.com/300x300/FF1493/FFFFFF?text=Romantic") |};
       {| name := u "Love Songs";
          url := u "https://open.spotify.com/playlist/37i9dQZF1DX0UrRvztWcAU";
          image := Some (u "https://via.placeholder.com/300x300/FF69B4/FFFFFF?text=Love+Songs") |};
       {| name := u "Date Night";
          url := u "https://open.spotify.com/playlist/37i9dQZF1DX4OzrY981I1W";
          image := Some (u "https://via.placeholder.com/300x300/FFB6C1/000000?text=Date+Night") |} ]);
    (u "dark",
     [ {| name := u "Dark & Stormy";
          url := u "https://open.spotify.com/playlist/37i9dQZF1DX0XUfTFmNBRM";
          image := Some (u "https://via.placeholder.com/300x300/2F4F4F/FFFFFF?text=Dark") |};
       {| name := u "Metal";
          url := u "https://open.spotify.com/playlist/37i9dQZF1DWWOaP4H0w5b0";
          image := Some (u "https://via.placeholder.com/300x300/000000/FFFFFF?text=Metal") |};
       {| name := u "Rock Hard";
          url := u "https://open.spotify.com/playlist/37i9dQZF1DWXRqgorJj26U";
          image := Some (u "https://via.placeholder.com/300x300/1C1C1C/FFFFFF?text=Rock+Hard") |} ]) ].

(** Lines 295-304. *)
Definition search_queries : dict (list str) :=
  [ (u "happy", [ u "happy"; u "feel good"; u "uplifting" ]);
    (u "sad", [ u "sad"; u "melancholy"; u "emotional" ]);
    (u "energetic", [ u "workout"; u "energetic"; u "power" ]);
    (u "calm", [ u "calm"; u "peaceful"; u "relaxing" ]);
    (u "excited", [ u "party"; u "dance"; u "upbeat" ]);
    (u "chill", [ u "chill"; u "lofi"; u "relax" ]);
    (u "romantic", [ u "romantic"; u "love songs"; u "date night" ]);
    (u "dark", [ u "dark"; u "intense"; u "heavy" ]) ].

(** ** The lexicon scorer (lines 120-125) *)

(** [sum(1 for keyword in keywords if keyword in text)]. *)
Definition keyword_score (keywords : list str) (text : str) : nat :=
  List.length (filter (fun keyword => contains keyword text) keywords).

(** The loop over a keyword table: a label enters the result, in table
    order, when its score is positive. *)
Fixpoint score_table (table : dict (list str)) (text : str) : dict nat :=
  match table with
  | [] => []
  | (emotion_key, keywords) :: rest =>
    let score := keyword_score keywords text in
    if 0 <? score then (emotion_key, score) :: score_table rest text
    else score_table rest text
  end.

Definition emotion_scores (text : str) : dict nat :=
  score_table emotion_keywords text.

(** [float(min(score / 5.0, 1.0))]. *)
Definition keyword_confidence (score : nat) : float :=
  float_min (float_of_int score / 5)%float 1%float.

(** ** Fusion of the two signals (lines 178-200)

    The result is [(final_emotion, confidence, final_method)]. *)
Definition fuse (st : locals) : option str * float * option str :=
  if truthy (facial_emotion st) && truthy (text_emotion st) then
    if (text_confidence st <=? facial_confidence st)%float then
      (facial_emotion st, facial_confidence st,
       if (text_confidence st <? facial_confidence st)%float
       then Some (u "facial") else Some (u "combined"))
    else
      (text_emotion st, text_confidence st,
       if (facial_confidence st <? text_confidence st)%float
       then Some (u "text") else Some (u "combined"))
  else if truthy (facial_emotion st) then
    (facial_emotion st, facial_confidence st, Some (u "facial"))
  else if truthy (text_emotion st) then
    (text_emotion st, text_confidence st, Some (u "text"))
  else (None, 0%float, detection_method st).

Section Handler.

(** [str.lower]. *)
Variable lower : str -> str.

(** [te.get_emotion]. *)
Variable get_emotion : str -> te_result.

(** [None] when [from deepface import DeepFace] fails; otherwise lines
    70-77 as a function of [data['image']]. *)
Variable deepface : option (str -> vision).

(** The module-level [sp]: [None] without credentials, otherwise
    [sp.search(q=query, type='playlist', limit=5)] as a function of the
    query. *)
Variable sp : option (str -> search_result).

(** *** Mood lookup (lines 203-204) *)
Definition mood_of (final_emotion : str) : str :=
  get_or emotion_to_mood (lower final_emotion) (u "chill").

(** *** get_spotify_playlists (lines 226-318) *)
Definition get_spotify_playlists (mood language : str) : list playlist :=
  match sp with
  | None =>
    if str_eqb language (u "hi") then
      get_or sample_playlists_hi mood
        (get_or sample_playlists_hi (u "chill") [])
    else
      get_or sample_playlists mood (get_or sample_playlists (u "chill") [])
  | Some search =>
    let query := hd mood (get_or search_queries mood [mood]) in
    match search query with
    | SearchRaises => []
    | SearchItems items =>
      map (fun i => {| name := item_name i;
                       url := item_url i;
                       image := hd_error (item_images i) |}) items
    end
  end.

(** *** Facial detection (lines 57-101) *)

Definition init : locals :=
  {| facial_emotion := None; facial_confidence := 0%float;
     text_emotion := None; text_confidence := 0%float;
     detection_method := None; language := None |}.

Definition set_facial (st : locals) (e : option str) (c : float)
  (m : option str) : locals :=
  {| facial_emotion := e; facial_confidence := c;
     text_emotion := text_emotion st; text_confidence := text_confidence st;
     detection_method := m; language := language st |}.

(** [result[0]] for a list (IndexError on the empty one), else [result]. *)
Definition first_result (result : deepface_result) : option analysis :=
  match result with
  | AsList [] => None
  | AsList (res :: _) => Some res
  | AsOne res => Some res
  end.

Definition facial_detection (data : request) (st : locals) : locals :=
  match req_image data with
  | None => st
  | Some img =>
    match deepface with
    | None => st
    | Some analyze =>
      match analyze img with
      | VisionRaises => set_facial st None 0%float (detection_method st)
      | ImgNone => st
      | Analyzed result =>
        match first_result result with
        | None => set_facial st None 0%float (detection_method st)
        | Some (FaceDict (Some (kv :: r)) _) =>
          let '(emotion, score) := argmax_from float_gt kv r in
          set_facial st (Some emotion)
            (if (1 <? float_max (snd kv) (values r))%float
             then (score / 100)%float else score)
            (Some (u "facial"))
        | Some (FaceDict _ dominant_emotion) =>
          set_facial st dominant_emotion 0%float (Some (u "facial"))
        | Some NotDict => set_facial st None 0%float (Some (u "facial"))
        end
      end
    end
  end.

(** *** Text detection (lines 103-173)

    The stage gives the locals it leaves and, when the handler returns from
    inside it, the response. *)

Definition set_text (st : locals) (e : str) (c : float) (l : str) : locals :=
  {| facial_emotion := facial_emotion st;
     facial_confidence := facial_confidence st;
     text_emotion := Some e; text_confidence := c;
     detection_method := Some (u "text"); language := Some l |}.

Definition set_language (st : locals) (l : str) : locals :=
  {| facial_emotion := facial_emotion st;
     facial_confidence := facial_confidence st;
     text_emotion := text_emotion st; text_confidence := text_confidence st;
     detection_method := detection_method st; language := Some l |}.

Definition no_text_emotion : str :=
  u "Could not detect emotion from text. Please provide more descriptive text about your feelings.".

(** Lines 128-129, on the lower-cased, stripped text. *)
Definition detect_language (text : str) : str :=
  if has_devanagari text then u "hi" else u "en".

(** Lines 133-138 and 160-165: the lexicon alone decides. *)
Definition keywords_only (st : locals) (scores : dict nat) (l : str)
  : locals * option response :=
  match argmax int_gt scores with
  | Some (emotion, score) =>
    (set_text st emotion (keyword_confidence score) l, None)
  | None => (set_language st l, Some (Err400 no_text_emotion None))
  end.

(** Lines 144-159: classifier and lexicon combined. *)
Definition combine (st : locals) (te : str * float) (scores : dict nat)
  (l : str) : locals :=
  let '(te_emotion, te_score) := te in
  match argmax int_gt scores with
  | Some (keyword_emotion, keyword_score) =>
    if (2 <=? keyword_score) || (0 <? keyword_score) && (te_score <? 0.3)%float
    then set_text st keyword_emotion (keyword_confidence keyword_score) l
    else set_text st te_emotion te_score l
  | None => set_text st te_emotion te_score l
  end.

Definition text_analysis (raw : str) (st : locals) : locals * option response :=
  let text := strip (lower raw) in
  let scores := emotion_scores text in
  let l := detect_language text in
  if has_devanagari text then keywords_only st scores l
  else
    match get_emotion raw with
    | TeRaises e tb =>
      (set_language st l,
       Some (Err400 (u "Text analysis failed. Please try again.") (Some (e, tb))))
    | TeScores [] => keywords_only st scores l
    | TeScores (kv :: r) =>
      if existsb float_truthy (values (kv :: r))
      then (combine st (argmax_from float_gt kv r) scores l, None)
      else keywords_only st scores l
    end.

Definition text_detection (data : request) (st : locals)
  : locals * option response :=
  match req_text data with
  | None => (st, None)
  | Some raw =>
    if nonempty (strip raw) then text_analysis raw st else (st, None)
  end.

(** *** The answer (lines 202-224) *)

Definition no_emotion : str :=
  u "Could not detect emotion. Please try again with clearer input.".

Definition respond (st : locals) (fused : option str * float * option str)
  : response :=
  let '(final_emotion, confidence, final_method) := fused in
  match final_emotion with
  | Some e =>
    if nonempty e then
      let emotion_lower := lower e in
      let mood := mood_of e in
      match language st with
      | None => Crash500 (u "UnboundLocalError")
      | Some l =>
        Ok200 {| r_emotion := emotion_lower;
                 r_mood := mood;
                 r_language := l;
                 r_playlists := get_spotify_playlists mood l;
                 r_method := final_method;
                 r_confidence := confidence;
                 r_facial_emotion := facial_emotion st;
                 r_facial_confidence := facial_confidence st;
                 r_text_emotion := text_emotion st;
                 r_text_confidence := text_confidence st |}
      end
    else Err400 no_emotion None
  | None => Err400 no_emotion None
  end.

(** *** detect_emotion (lines 50-224) *)

Definition run_stages (data : request) : locals * option response :=
  text_detection data (facial_detection data init).

Definition detect_emotion (data : request) : response :=
  match run_stages data with
  | (_, Some r) => r
  | (st, None) => respond st (fuse st)
  end.

End Handler.

(** ** Auxiliary readings of the handler's state *)

(** The static table [get_spotify_playlists] reads for a language. *)
Definition static_table (language : str) : dict (list playlist) :=
  if str_eqb language (u "hi") then sample_playlists_hi else sample_playlists.

(** The text signal and the facial signal held by the locals. *)
Definition text_signal (st : locals) : option str * float :=
  (text_emotion st, text_confidence st).

Definition facial_signal (st : locals) : option str * float :=
  (facial_emotion st, facial_confidence st).

(** The condition of line 150. *)
Definition lexicon_overrides (keyword_score : nat) (te_score : float) : Prop :=
  2 <= keyword_score
  \/ (0 < keyword_score /\ (te_score <? 0.3)%float = true).

(** The selection policy between the classifier's best pair [te] and the
    lexicon's best pair [kw], as a property of the text signal [result]. *)
Definition selection (result : option str * float) (te : str * float)
  (kw : option (str * nat)) : Prop :=
  match kw with
  | None => result = (Some (fst te), snd te)
  | Some (kwLabel, kwScore) =>
    (lexicon_overrides kwScore (snd te) <->
     result = (Some kwLabel, float_min (float_of_int kwScore / 5)%float 1%float))
    /\ (~ lexicon_overrides kwScore (snd te) ->
        result = (Some (fst te), snd te))
  end.

(** ** The specification's words, for comparison with the source *)

Module Spec.

(** §3, EmotionVocabulary and MoodVocabulary. *)
Definition EmotionVocabulary : list str :=
  [ u "happy"; u "sad"; u "angry"; u "fear"; u "surprise"; u "neutral";
    u "disgust"; u "joy"; u "anticipation"; u "trust"; u "positive";
    u "negative"; u "worry"; u "love" ].

Definition MoodVocabulary : list str :=
  [ u "happy"; u "sad"; u "energetic"; u "calm"; u "excited"; u "chill";
    u "dark"; u "romantic" ].




(** §4.1 read to the letter, "counts ... substring occurrences of every
    keyword": the number of places of the text where a keyword starts. *)
Fixpoint occurrences (keyword text : str) : nat :=
  (if startswith keyword text then 1 else 0)
  + match text with [] => 0 | _ :: rest => occurrences keyword rest end.

Definition occurrence_score (keywords : list str) (text : str) : nat :=
  list_sum (map (fun keyword => occurrences keyword text) keywords).

End Spec.

(** ** Sample collaborators and requests *)

Module Samples.

(** text2emotion on a text it knows no word of, and on one it reads as
    happy. *)
Definition te_zero (_ : str) : te_result :=
  TeScores [ (u "Happy", 0%float); (u "Angry", 0%float);
             (u "Surprise", 0%float); (u "Sad", 0%float);
             (u "Fear", 0%float) ].

Definition te_happy (_ : str) : te_result :=
  TeScores [ (u "Happy", 0.5%float); (u "Angry", 0%float);
             (u "Surprise", 0.25%float); (u "Sad", 0%float);
             (u "Fear", 0.25%float) ].

(** A data URL that lines 70-72 decode: the base64 of a complete 8x8 RGB
    PNG file, which [cv2.imdecode] reads into an image. *)
Definition photo : str :=
  u "data:image/png;base64,iVBORw0KGgoAAAANSUhEUgAAAAgAAAAICAIAAABLbSncAAAAEUlEQVR42mM4sWoaVsQwtCQA2DaCAY0tpa8AAAAASUVORK5CYII=".

(** Lines 70-77 in a world where [photo] is the one image that decodes, and
    in which DeepFace reads a happy face, with its percent scores: a string
    without a comma raises at [split(',')[1]], and any other image gives
    [img is None]. *)
Definition face_happy (image : str) : vision :=
  if str_eqb image photo then
    Analyzed (AsList
      [ FaceDict (Some [ (u "angry", 0.5%float); (u "disgust", 0%float);
                         (u "fear", 1.5%float); (u "happy", 92.5%float);
                         (u "sad", 1%float); (u "surprise", 0.5%float);
                         (u "neutral", 4%float) ])
                 (Some (u "happy")) ])
  else if contains (u ",") image then ImgNone
  else VisionRaises.

Definition both_signals : locals :=
  {| facial_emotion := Some (u "happy"); facial_confidence := 0.5%float;
     text_emotion := Some (u "sad"); text_confidence := 0.25%float;
     detection_method := Some (u "text"); language := Some (u "en") |}.

Definition image_only : request :=
  {| req_image := Some photo; req_text := None |}.

Definition empty_body : request :=
  {| req_image := None; req_text := None |}.

Definition text_only (raw : str) : request :=
  {| req_image := None; req_text := Some raw |}.

Definition hindi_happy : str := u "मैं बहुत खुश हूँ".

Definition english_happy : str := u "I am so happy and excited today".


Definition blank : str := u "   ".

Definition no_keyword : str := u "xyz".

End Samples.

Import Spec Samples.

(** ** Start-up, and readings of requests and answers *)

(** Lines 17-24: the module-level [sp] from the two environment variables,
    each [None] when unset; [connect] stands for the construction of the
    client. *)
Definition spotify_client (client_id client_secret : option str)
  (connect : str -> str -> str -> search_result)
  : option (str -> search_result) :=
  match client_id, client_secret with
  | Some i, Some s =>
    if nonempty i && nonempty s then Some (connect i s) else None
  | _, _ => None
  end.

(** The guard of line 106 fails: no text field, or a text that strips to
    the empty string. *)
Definition text_skipped (data : request) : bool :=
  match req_text data with
  | None => true
  | Some raw => negb (nonempty (strip raw))
  end.

Definition nonspace (c : codepoint) : bool := negb (isspace c).

(** An answer with its playlists left out. *)
Definition without_playlists (r : response) : response :=
  match r with
  | Ok200 b =>
    Ok200 {| r_emotion := r_emotion b;
             r_mood := r_mood b;
             r_language := r_language b;
             r_playlists := [];
             r_method := r_method b;
             r_confidence := r_confidence b;
             r_facial_emotion := r_facial_emotion b;
             r_facial_confidence := r_facial_confidence b;
             r_text_emotion := r_text_emotion b;
             r_text_confidence := r_text_confidence b |}
  | _ => r
  end.

(** A playlist list as the static tables hold them: three descriptors,
    each with a name, a url and an image. *)
Definition three_full (l : list playlist) : Prop :=
  List.length l = 3
  /\ Forall (fun p => name p <> [] /\ url p <> [] /\ image p <> None) l.

(** The same as a boolean, for the tables. *)
Definition three_fullb (l : list playlist) : bool :=
  (List.length l =? 3)
  && forallb (fun p => nonempty (name p) && nonempty (url p)
                       && match image p with Some _ => true | None => false end)
       l.

(** Two floats that compare: neither is a NaN. *)
Definition comparable (x y : float) : bool :=
  ((x <=? y) || (y <=? x))%float.

(** More sample collaborators. *)
Module MoreSamples.

Definition te_raises (_ : str) : te_result :=
  TeRaises (u "LookupError") (u "Traceback (most recent call last)").

Definition search_two (_ : str) : search_result :=
  SearchItems
    [ {| item_name := u "Happy Hits"; item_url := u "https://open.spotify.com/playlist/1";
         item_images := [ u "https://i.scdn.co/image/1"; u "https://i.scdn.co/image/2" ] |};
      {| item_name := u "Good Vibes"; item_url := u "https://open.spotify.com/playlist/2";
         item_images := [] |} ].

Definition search_fails (_ : str) : search_result := SearchRaises.

Definition face_and_text (raw : str) : request :=
  {| req_image := Some photo; req_text := Some raw |}.

Definition face_scores : dict float :=
  [ (u "angry", 0.5%float); (u "happy", 92.5%float); (u "sad", 7%float) ].

End MoreSamples.

Import MoreSamples.

(** ** Bodies whose fields hold any JSON value *)

(** What a field of the posted object holds: a string, or another JSON
    value (null, a number, a boolean, a list, an object). *)
Inductive json_value :=
| JString (s : str)
| JOther.

(** The posted JSON object, read for its two fields. *)
Record json_body := {
  j_image : option json_value;
  j_text : option json_value }.

Definition string_of (field : option json_value) : option str :=
  match field with
  | Some (JString s) => Some s
  | _ => None
  end.

(** The body with every field that is not a string left out. *)
Definition request_of (data : json_body) : request :=
  {| req_image := string_of (j_image data);
     req_text := string_of (j_text data) |}.

Section AnyBody.

Variable lower : str -> str.
Variable get_emotion : str -> te_result.
Variable deepface : option (str -> vision).
Variable sp : option (str -> search_result).

(** Lines 59-100 for any image field. A value that is not a string has no
    [split]: when DeepFace was imported, line 70 raises AttributeError
    inside the [try], and lines 94-97 reset the facial signal. *)
Definition facial_detection_json (image : option json_value) (st : locals)
  : locals :=
  match image with
  | None => st
  | Some (JString img) =>
    facial_detection deepface {| req_image := Some img; req_text := None |} st
  | Some JOther =>
    match deepface with
    | None => st
    | Some _ => set_facial st None 0%float (detection_method st)
    end
  end.

(** Lines 175-224, after a text stage that gave [out]. *)
Definition finish (out : locals * option response) : response :=
  match out with
  | (_, Some r) => r
  | (st, None) => respond lower sp st (fuse st)
  end.

(** Lines 50-224 for any body. Line 106 is outside the [try] and calls
    [strip] on whatever the text field holds: on a value that is not a
    string the AttributeError leaves the handler, after the facial stage
    has run. *)
Definition detect_emotion_json (data : json_body) : response :=
  let st := facial_detection_json (j_image data) init in
  match j_text data with
  | Some JOther => Crash500 (u "AttributeError")
  | Some (JString raw) =>
    finish (text_detection lower get_emotion
              {| req_image := None; req_text := Some raw |} st)
  | None =>
    finish (text_detection lower get_emotion
              {| req_image := None; req_text := None |} st)
  end.

End AnyBody.

(** ** Facts about the built-ins *)

Lemma str_eqb_refl (a : str) : str_eqb a a = true.
Proof.
  induction a as [|x a IH]; simpl; [reflexivity|].
  now rewrite N.eqb_refl.
Qed.

Lemma str_eqb_eq (a b : str) : str_eqb a b = true <-> a = b.
Proof.
  split; [|intros ->; apply str_eqb_refl].
  revert b; induction a as [|x a IH]; intros [|y b]; simpl; try discriminate.
  - reflexivity.
  - intros H. apply andb_true_iff in H as [Hx Hr].
    apply N.eqb_eq in Hx. apply IH in Hr. now subst.
Qed.

Lemma str_eqb_neq (a b : str) : str_eqb a b = false <-> a <> b.
Proof.
  rewrite <- str_eqb_eq. destruct (str_eqb a b); split; congruence.
Qed.

(** [NoDup] of a list of string constants: no element is among the ones
    after it. *)
Ltac nodup_strings :=
  repeat (constructor;
          [ simpl; intros H;
            repeat (destruct H as [H|H]; [discriminate H|]); exact H | ]);
  constructor.

Lemma isspace_not_devanagari (c : codepoint) :
  isspace c = true -> devanagari c = false.
Proof.
  unfold isspace, devanagari. intros H.
  repeat rewrite ?orb_true_iff, ?andb_true_iff, ?N.leb_le, ?N.eqb_eq in H.
  apply andb_false_iff. rewrite !N.leb_gt. lia.
Qed.

Lemma lstrip_blank (s : str) : forallb isspace s = true -> lstrip s = [].
Proof.
  induction s as [|c s IH]; simpl; [reflexivity|].
  intros H. apply andb_true_iff in H as [Hc Hs]. now rewrite Hc, IH.
Qed.

Lemma strip_blank (s : str) : forallb isspace s = true -> strip s = [].
Proof.
  intros H. unfold strip, rstrip. now rewrite (lstrip_blank s H).
Qed.

Lemma has_devanagari_lstrip (s : str) :
  has_devanagari (lstrip s) = has_devanagari s.
Proof.
  induction s as [|c s IH]; simpl; [reflexivity|].
  destruct (isspace c) eqn:Hc; [|reflexivity].
  now rewrite IH, (isspace_not_devanagari c Hc).
Qed.

Lemma has_devanagari_rev (s : str) :
  has_devanagari (rev s) = has_devanagari s.
Proof.
  unfold has_devanagari.
  induction s as [|c s IH]; simpl; [reflexivity|].
  rewrite existsb_app, IH. simpl. rewrite orb_false_r. apply orb_comm.
Qed.

Lemma has_devanagari_strip (s : str) :
  has_devanagari (strip s) = has_devanagari s.
Proof.
  unfold strip, rstrip.
  now rewrite has_devanagari_rev, has_devanagari_lstrip, has_devanagari_rev,
    has_devanagari_lstrip.
Qed.

Lemma has_devanagari_nonempty (s : str) :
  has_devanagari s = true -> nonempty s = true.
Proof. destruct s; [discriminate | reflexivity]. Qed.

Lemma lower_ascii_devanagari (s : str) :
  has_devanagari (lower_ascii s) = has_devanagari s.
Proof.
  induction s as [|c s IH]; simpl; [reflexivity|].
  f_equal; [|exact IH].
  unfold lower_ascii_cp, devanagari.
  destruct ((65 <=? c) && (c <=? 90))%N eqn:Hc; [|reflexivity].
  apply andb_true_iff in Hc as [H1 H2].
  apply N.leb_le in H1. apply N.leb_le in H2.
  transitivity false; [|symmetry]; apply andb_false_iff; rewrite !N.leb_gt; lia.
Qed.

(** [k in t] is substring containment, code point by code point. *)
Lemma startswith_spec (k t : str) :
  startswith k t = true <-> exists post, t = k ++ post.
Proof.
  revert t; induction k as [|a k IH]; intros t; simpl.
  - split; [intros _; now exists t | reflexivity].
  - destruct t as [|b t].
    + split; [discriminate | intros [post H]; discriminate].
    + rewrite andb_true_iff, N.eqb_eq, IH. split.
      * intros [-> [post ->]]. now exists post.
      * intros [post H]. injection H as -> ->. split; [reflexivity|now exists post].
Qed.

Lemma contains_spec (k t : str) :
  contains k t = true <-> exists pre post, t = pre ++ k ++ post.
Proof.
  induction t as [|b t IH]; simpl.
  - rewrite orb_false_r, startswith_spec. split.
    + intros [post H]. now exists [], post.
    + intros [pre [post H]]. destruct pre; [now exists post|discriminate].
  - rewrite orb_true_iff, IH, startswith_spec. split.
    + intros [[post H]|[pre [post H]]].
      * now exists [], post.
      * exists (b :: pre), post. simpl. now rewrite H.
    + intros [[|c pre] [post H]].
      * left. now exists post.
      * right. injection H as _ H. now exists pre, post.
Qed.

(** Order facts on binary64 floats, from the specification of the
    primitive comparisons. *)
Lemma SFcompare_antisym (x y : spec_float) :
  SFcompare y x = option_map CompOpp (SFcompare x y).
Proof.
  destruct x as [sx|sx| |sx mx ex], y as [sy|sy| |sy my ey]; simpl;
    try reflexivity; try (destruct sx; reflexivity);
    try (destruct sy; reflexivity); try (destruct sx, sy; reflexivity).
  destruct sx, sy; simpl; try reflexivity;
    rewrite (Z.compare_antisym ex ey); destruct (ex ?= ey)%Z; simpl;
    try reflexivity; f_equal.
  - rewrite CompOpp_involutive. exact (Pos.compare_cont_antisym my mx Eq).
  - symmetry. exact (Pos.compare_cont_antisym mx my Eq).
Qed.

Lemma float_ltb_leb (x y : float) :
  (x <? y)%float = true -> (x <=? y)%float = true.
Proof.
  rewrite ltb_spec, leb_spec. unfold SFltb, SFleb.
  destruct (SFcompare _ _) as [[]|]; congruence.
Qed.

Lemma float_ltb_not_leb (x y : float) :
  (x <? y)%float = true -> (y <=? x)%float = false.
Proof.
  rewrite ltb_spec, leb_spec. unfold SFltb, SFleb.
  rewrite (SFcompare_antisym (Prim2SF x) (Prim2SF y)).
  destruct (SFcompare _ _) as [[]|]; simpl; congruence.
Qed.

Lemma float_eqb_leb (x y : float) :
  (x =? y)%float = true ->
  (y <=? x)%float = true /\ (y <? x)%float = false.
Proof.
  rewrite eqb_spec, leb_spec, ltb_spec. unfold SFeqb, SFltb, SFleb.
  rewrite (SFcompare_antisym (Prim2SF x) (Prim2SF y)).
  destruct (SFcompare _ _) as [[]|]; simpl; intuition congruence.
Qed.

(** ** Fusion *)

(** C1. When a facial and a text signal are both present, the fusion takes
    the emotion and the confidence of the signal with the higher confidence:
    the method is 'facial' when the facial confidence is strictly greater,
    'text' when the text confidence is strictly greater, and 'combined' when
    the two confidences are equal (the facial emotion is then the one
    reported). *)
Theorem fuse_both_present (st : locals) :
  truthy (facial_emotion st) = true ->
  truthy (text_emotion st) = true ->
  ((text_confidence st <? facial_confidence st)%float = true ->
   fuse st = (facial_emotion st, facial_confidence st, Some (u "facial"))) /\
  ((facial_confidence st <? text_confidence st)%float = true ->
   fuse st = (text_emotion st, text_confidence st, Some (u "text"))) /\
  ((facial_confidence st =? text_confidence st)%float = true ->
   fuse st = (facial_emotion st, facial_confidence st, Some (u "combined"))).
Proof.
  intros Hf Ht. unfold fuse. rewrite Hf, Ht. simpl.
  repeat split; intros H.
  - now rewrite (float_ltb_leb _ _ H), H.
  - now rewrite (float_ltb_not_leb _ _ H), H.
  - destruct (float_eqb_leb _ _ H) as [Hle Hlt]. now rewrite Hle, Hlt.
Qed.

Lemma fuse_both_present_witness :
  fuse both_signals = (Some (u "happy"), 0.5%float, Some (u "facial")).
Proof.
  apply (proj1 (fuse_both_present both_signals eq_refl eq_refl)).
  reflexivity.
Defined.

(** ** Mood lookup *)

Lemma get_None {V} (d : dict V) (k : str) :
  get d k = None <-> ~ In k (keys d).
Proof.
  induction d as [|[k' v] d IH]; simpl.
  - tauto.
  - destruct (str_eqb k' k) eqn:E.
    + apply str_eqb_eq in E. split; [discriminate | tauto].
    + apply str_eqb_neq in E. rewrite IH. tauto.
Qed.

Lemma get_or_in {V} (d : dict V) (k : str) (default : V) (P : V -> Prop) :
  Forall P (values d) -> P default -> P (get_or d k default).
Proof.
  unfold get_or. intros Hd Hdef.
  induction d as [|[k' v] d IH]; simpl in *; [exact Hdef|].
  inversion Hd; subst. destruct (str_eqb k' k); auto.
Qed.

Section MoodMapper.

Variable lower : str -> str.

(** On a string of ASCII characters [str.lower] lowers the letters A-Z and
    keeps the rest. *)
Hypothesis lower_on_ascii :
  forall s, is_ascii s = true -> lower s = lower_ascii s.

(** C6. The mood lookup is total: every label, lower-cased, is sent to a
    member of the MoodVocabulary; the table's keys are the labels of the
    EmotionVocabulary, each once, and each such label is sent to its table
    entry, in whatever case its ASCII letters are written; a label whose
    lower-cased form is not in the table is sent to 'chill'. *)
Theorem mood_of_total :
  (forall e, In (mood_of lower e) MoodVocabulary) /\
  (keys emotion_to_mood = EmotionVocabulary /\ NoDup EmotionVocabulary) /\
  (forall e, In e EmotionVocabulary ->
     get emotion_to_mood e = Some (mood_of lower e)) /\
  (forall e, is_ascii e = true -> In (lower_ascii e) EmotionVocabulary ->
     mood_of lower e = mood_of lower (lower_ascii e)) /\
  (forall e, ~ In (lower e) EmotionVocabulary ->
     mood_of lower e = u "chill").
Proof.
  split; [|split; [|split; [|split]]].
  - intros e. unfold mood_of. apply get_or_in.
    + unfold MoodVocabulary.
      repeat (constructor; [simpl; auto 12|]). constructor.
    + simpl; auto 12.
  - split; [reflexivity|].
    unfold EmotionVocabulary.
    nodup_strings.
  - intros e He. unfold mood_of.
    simpl in He.
    repeat (destruct He as [<-|He];
            [rewrite lower_on_ascii by reflexivity; reflexivity|]).
    contradiction.
  - intros e Ha He. unfold mood_of.
    rewrite (lower_on_ascii e Ha).
    rewrite (lower_on_ascii (lower_ascii e)).
    + f_equal.
      simpl in He.
      repeat (destruct He as [<-|He]; [reflexivity|]).
      contradiction.
    + simpl in He.
      repeat (destruct He as [<-|He]; [reflexivity|]).
      contradiction.
  - intros e He. unfold mood_of, get_or.
    replace (get emotion_to_mood (lower e)) with (@None str); [reflexivity|].
    symmetry. apply get_None. exact He.
Qed.

End MoodMapper.

Lemma mood_of_total_witness :
  In (mood_of lower_ascii (u "Happy")) MoodVocabulary
  /\ get emotion_to_mood (u "love") = Some (mood_of lower_ascii (u "love")).
Proof.
  pose proof (mood_of_total lower_ascii (fun s _ => eq_refl)) as H.
  split.
  - apply (proj1 H).
  - apply (proj1 (proj2 (proj2 H))). simpl. auto 20.
Defined.

(** ** Static playlists *)

(** C9. Without a Spotify client, [get_spotify_playlists('romantic', 'en')]
    is a list of exactly 3 descriptors, each with a non-empty name and a
    non-empty url; and for a mood that is not a key of the table of the
    language, the list of that table's 'chill' entry is returned. *)
Theorem offline_playlists :
  (List.length (get_spotify_playlists None (u "romantic") (u "en")) = 3
   /\ Forall (fun p => name p <> [] /\ url p <> [])
        (get_spotify_playlists None (u "romantic") (u "en")))
  /\ (forall mood language,
        get (static_table language) mood = None ->
        Some (get_spotify_playlists None mood language)
        = get (static_table language) (u "chill")).
Proof.
  split.
  - split; [reflexivity|].
    vm_compute. repeat (constructor; [split; discriminate|]). constructor.
  - intros mood language. unfold static_table, get_spotify_playlists.
    destruct (str_eqb language (u "hi")); intros H;
      unfold get_or at 1; rewrite H; reflexivity.
Qed.

Lemma offline_playlists_witness :
  Some (get_spotify_playlists None (u "romantic") (u "hi"))
  = get (static_table (u "hi")) (u "chill").
Proof.
  apply (proj2 offline_playlists (u "romantic") (u "hi")). reflexivity.
Defined.

(** ** The lexicon scorer *)

Lemma keyword_score_zero (keywords : list str) (text : str) :
  keyword_score keywords text = 0 <->
  forall keyword, In keyword keywords -> contains keyword text = false.
Proof.
  unfold keyword_score. induction keywords as [|k ks IH]; simpl.
  - split; [intros _ ? [] | reflexivity].
  - destruct (contains k text) eqn:E; simpl.
    + split; [discriminate|]. intros H.
      specialize (H k (or_introl eq_refl)). congruence.
    + rewrite IH. split.
      * intros H keyword [<-|Hin]; auto.
      * intros H keyword Hin. apply H. now right.
Qed.


Lemma score_table_nil (table : dict (list str)) (text : str) :
  score_table table text = [] <->
  forall label keywords,
    In (label, keywords) table -> keyword_score keywords text = 0.
Proof.
  induction table as [|[k ks] rest IH]; simpl.
  - split; [intros _ ? ? [] | reflexivity].
  - destruct (0 <? keyword_score ks text) eqn:E.
    + apply Nat.ltb_lt in E. split; [discriminate|].
      intros H. specialize (H k ks (or_introl eq_refl)). lia.
    + apply Nat.ltb_ge in E. rewrite IH. split.
      * intros H label keywords [Heq|Hin]; [|now apply (H label)].
        injection Heq as <- <-. lia.
      * intros H label keywords Hin. apply (H label). now right.
Qed.

Lemma get_score_table (table : dict (list str)) (text label : str) :
  NoDup (keys table) ->
  get (score_table table text) label
  = match get table label with
    | Some keywords =>
      if 0 <? keyword_score keywords text
      then Some (keyword_score keywords text) else None
    | None => None
    end.
Proof.
  induction table as [|[k ks] rest IH]; simpl; [reflexivity|].
  intros Hnd. inversion Hnd as [|? ? Hk Hrest]; subst.
  specialize (IH Hrest).
  destruct (str_eqb k label) eqn:E.
  - apply str_eqb_eq in E; subst label.
    destruct (0 <? keyword_score ks text) eqn:S; simpl.
    + now rewrite str_eqb_refl.
    + rewrite IH. now rewrite (proj2 (get_None rest k) Hk).
  - destruct (0 <? keyword_score ks text); simpl; rewrite ?E; exact IH.
Qed.

Lemma emotion_keywords_nodup : NoDup (keys emotion_keywords).
Proof.
  unfold emotion_keywords, keys. simpl.
  nodup_strings.
Qed.

(** C8, as amended. The lexicon scorer maps each emotion label to the
    number of that label's keywords that occur in the text as a
    case-sensitive substring, a keyword counting once however often it
    occurs; only labels with a positive count are in the result; and the
    result is the empty mapping exactly when no keyword occurs. *)
Theorem emotion_scores_counts_keywords (text : str) :
  (forall label n,
     get (emotion_scores text) label = Some n <->
     0 < n /\
     exists keywords,
       get emotion_keywords label = Some keywords /\
       n = List.length (filter (fun keyword => contains keyword text) keywords))
  /\ (forall keyword,
        contains keyword text = true <->
        exists pre post, text = pre ++ keyword ++ post)
  /\ (emotion_scores text = [] <->
      forall label keywords keyword,
        In (label, keywords) emotion_keywords -> In keyword keywords ->
        contains keyword text = false).
Proof.
  split; [|split].
  - intros label n. unfold emotion_scores.
    rewrite (get_score_table _ text label emotion_keywords_nodup).
    destruct (get emotion_keywords label) as [keywords|].
    + fold (keyword_score keywords text).
      destruct (0 <? keyword_score keywords text) eqn:E.
      * apply Nat.ltb_lt in E. split.
        -- intros [= <-]. split; [exact E|]. now exists keywords.
        -- intros [_ [ks [[= <-] ->]]]. reflexivity.
      * apply Nat.ltb_ge in E. split; [discriminate|].
        intros [Hn [ks [[= <-] ->]]]. unfold keyword_score in E. lia.
    + split; [discriminate|]. intros [_ [ks [H _]]]. discriminate.
  - intros keyword. apply contains_spec.
  - unfold emotion_scores. rewrite score_table_nil. split.
    + intros H label keywords keyword Hin.
      apply keyword_score_zero. now apply (H label).
    + intros H label keywords Hin. apply keyword_score_zero.
      intros keyword. now apply (H label keywords keyword).
Qed.

(** C8 as the specification words it fails: in "sad sad" the keyword 'sad'
    occurs twice, and the score of the label 'sad' is 1. *)
Lemma scores_are_not_occurrence_counts :
  get (emotion_scores (u "sad sad")) (u "sad") = Some 1
  /\ option_map (fun keywords => occurrence_score keywords (u "sad sad"))
       (get emotion_keywords (u "sad")) = Some 2.
Proof. split; reflexivity. Qed.

(** ** The text stage *)

Lemma argmax_from_in {V} (gt : V -> V -> bool) (d : dict V) (best : str * V) :
  argmax_from gt best d = best \/ In (argmax_from gt best d) d.
Proof.
  revert best; induction d as [|[k v] d IH]; intros best; simpl; [now left|].
  destruct (IH (if gt v (snd best) then (k, v) else best)) as [H|H].
  - rewrite H. destruct (gt v (snd best)); auto.
  - auto.
Qed.

Lemma argmax_in {V} (gt : V -> V -> bool) (d : dict V) (kv : str * V) :
  argmax gt d = Some kv -> In kv d.
Proof.
  destruct d as [|kv0 d]; simpl; [discriminate|].
  intros [= <-]. destruct (argmax_from_in gt d kv0) as [->|H]; auto.
Qed.

Lemma score_table_positive (table : dict (list str)) (text label : str) (n : nat) :
  In (label, n) (score_table table text) -> 0 < n.
Proof.
  induction table as [|[k ks] rest IH]; simpl; [tauto|].
  destruct (0 <? keyword_score ks text) eqn:E; [|exact IH].
  intros [[= <- <-]|H]; [now apply Nat.ltb_lt | now apply IH].
Qed.

Lemma detect_language_en (text : str) :
  detect_language text = u "en" <-> has_devanagari text = false.
Proof.
  unfold detect_language. destruct (has_devanagari text); split;
    try reflexivity; intros H; discriminate H.
Qed.

Section Endpoint.

Variable lower : str -> str.
Variable get_emotion : str -> te_result.
Variable deepface : option (str -> vision).
Variable sp : option (str -> search_result).

(** [str.lower] neither removes nor introduces Devanagari code points: the
    script has no letter case. *)
Hypothesis lower_devanagari :
  forall s, has_devanagari (lower s) = has_devanagari s.

Local Abbreviation analyse := (text_analysis lower get_emotion).
Local Abbreviation text_stage := (text_detection lower get_emotion).
Local Abbreviation facial_stage := (facial_detection deepface).
Local Abbreviation stages := (run_stages lower get_emotion deepface).
Local Abbreviation handler := (detect_emotion lower get_emotion deepface sp).

Lemma facial_detection_keeps_text (data : request) (st : locals) :
  text_signal (facial_stage data st) = text_signal st
  /\ language (facial_stage data st) = language st.
Proof.
  unfold facial_detection.
  destruct (req_image data) as [img|]; [|now split].
  destruct deepface as [analyze|]; [|now split].
  destruct (analyze img) as [| |result]; try now split.
  destruct (first_result result) as [[[[|kv r]|] dom|]|]; try now split.
  destruct (argmax_from float_gt kv r). now split.
Qed.

Lemma keywords_only_language (st : locals) (scores : dict nat) (l : str) :
  language (fst (keywords_only st scores l)) = Some l.
Proof.
  unfold keywords_only. destruct (argmax int_gt scores) as [[e n]|]; reflexivity.
Qed.

Lemma text_analysis_language (raw : str) (st : locals) :
  language (fst (analyse raw st))
  = Some (detect_language (strip (lower raw))).
Proof.
  unfold text_analysis.
  destruct (has_devanagari (strip (lower raw))).
  - apply keywords_only_language.
  - destruct (get_emotion raw) as [e tb|[|kv r]]; try reflexivity.
    + apply keywords_only_language.
    + destruct (existsb float_truthy (values (kv :: r))).
      * unfold combine. destruct (argmax_from float_gt kv r) as [te ts].
        destruct (argmax int_gt _) as [[ke ks]|]; [|reflexivity].
        destruct (_ || _); reflexivity.
      * apply keywords_only_language.
Qed.

Lemma devanagari_text_passes_guard (raw : str) :
  has_devanagari raw = true -> nonempty (strip raw) = true.
Proof.
  intros H. apply has_devanagari_nonempty. now rewrite has_devanagari_strip.
Qed.

Lemma cleaned_text_script (raw : str) :
  has_devanagari (strip (lower raw)) = has_devanagari raw.
Proof. now rewrite has_devanagari_strip, lower_devanagari. Qed.

Lemma keywords_only_return (st : locals) (scores : dict nat) (l : str)
  (r : response) :
  snd (keywords_only st scores l) = Some r -> r = Err400 no_text_emotion None.
Proof.
  unfold keywords_only. destruct (argmax int_gt scores) as [[e n]|];
    cbn [snd]; congruence.
Qed.

Lemma text_analysis_return (raw : str) (st : locals) (r : response) :
  snd (analyse raw st) = Some r ->
  exists msg dbg, r = Err400 msg dbg /\ nonempty msg = true.
Proof.
  assert (K : forall scores l,
             snd (keywords_only st scores l) = Some r ->
             exists msg dbg, r = Err400 msg dbg /\ nonempty msg = true).
  { intros scores l H. apply keywords_only_return in H.
    exists no_text_emotion, None. split; [exact H | reflexivity]. }
  unfold text_analysis.
  destruct (has_devanagari (strip (lower raw))); [apply K|].
  destruct (get_emotion raw) as [e tb|[|kv r']].
  - cbn [snd]. intros [= <-]. eexists _, _. split; reflexivity.
  - apply K.
  - destruct (existsb float_truthy (values (kv :: r'))); [discriminate | apply K].
Qed.

Lemma text_detection_return (data : request) (st : locals) (r : response) :
  snd (text_stage data st) = Some r ->
  exists msg dbg, r = Err400 msg dbg /\ nonempty msg = true.
Proof.
  unfold text_detection.
  destruct (req_text data) as [raw|]; [|discriminate].
  destruct (nonempty (strip raw)); [apply text_analysis_return | discriminate].
Qed.

(** What a 200 answer carries: the fused signal, the lower-cased emotion and
    the language of the text stage. *)
Lemma respond_ok (st : locals) (fused : option str * float * option str)
  (b : body) :
  respond lower sp st fused = Ok200 b ->
  language st = Some (r_language b)
  /\ (exists e, fst (fst fused) = Some e /\ nonempty e = true
                /\ r_emotion b = lower e /\ r_mood b = mood_of lower e)
  /\ r_confidence b = snd (fst fused)
  /\ r_method b = snd fused.
Proof.
  destruct fused as [[[e|] c] m]; unfold respond; [|discriminate].
  destruct (nonempty e) eqn:He; [|discriminate].
  destruct (language st) as [l|]; [|discriminate].
  intros [= <-]. cbn [r_language r_emotion r_mood r_confidence r_method fst snd].
  repeat split. now exists e.
Qed.

Lemma detect_emotion_ok (data : request) (b : body) :
  handler data = Ok200 b ->
  exists st, stages data = (st, None) /\ respond lower sp st (fuse st) = Ok200 b.
Proof.
  unfold detect_emotion.
  destruct (stages data) as [st [r|]] eqn:Hrun.
  - intros ->.
    assert (H : snd (stages data) = Some (Ok200 b)) by now rewrite Hrun.
    apply text_detection_return in H as [msg [dbg [H _]]]. discriminate H.
  - intros H. now exists st.
Qed.


(** C4, as amended. For every request whose text is not blank (not empty
    once stripped of surrounding whitespace), the language the handler
    detects is 'hi' exactly when the text contains a Devanagari code point
    and 'en' otherwise, and it is the language of any 200 answer. *)
Theorem language_of_text (data : request) (raw : str) :
  req_text data = Some raw ->
  nonempty (strip raw) = true ->
  language (fst (stages data))
  = Some (if has_devanagari raw then u "hi" else u "en")
  /\ (forall b, handler data = Ok200 b ->
        r_language b = if has_devanagari raw then u "hi" else u "en").
Proof.
  intros Htext Hguard.
  assert (Hl : language (fst (stages data))
               = Some (if has_devanagari raw then u "hi" else u "en")).
  { unfold run_stages, text_detection.
    rewrite Htext, Hguard, text_analysis_language.
    unfold detect_language. now rewrite cleaned_text_script. }
  split; [exact Hl|].
  intros b Hb. apply detect_emotion_ok in Hb as [st [Hrun Hb]].
  apply respond_ok in Hb as [Hlang _].
  rewrite Hrun in Hl. cbn [fst] in Hl. congruence.
Qed.

Lemma lexicon_overrides_bool (keyword_score : nat) (te_score : float) :
  (2 <=? keyword_score) || (0 <? keyword_score) && (te_score <? 0.3)%float
  = true
  <-> lexicon_overrides keyword_score te_score.
Proof.
  unfold lexicon_overrides.
  rewrite orb_true_iff, andb_true_iff, Nat.leb_le, Nat.ltb_lt. tauto.
Qed.

Lemma combine_signal (st : locals) (te_emotion : str) (te_score : float)
  (scores : dict nat) (l : str) :
  text_signal (combine st (te_emotion, te_score) scores l)
  = match argmax int_gt scores with
    | Some (keyword_emotion, keyword_score) =>
      if (2 <=? keyword_score)
         || (0 <? keyword_score) && (te_score <? 0.3)%float
      then (Some keyword_emotion, keyword_confidence keyword_score)
      else (Some te_emotion, te_score)
    | None => (Some te_emotion, te_score)
    end.
Proof.
  unfold combine. destruct (argmax int_gt scores) as [[ke ks]|]; [|reflexivity].
  destruct ((2 <=? ks) || (0 <? ks) && (te_score <? 0.3)%float); reflexivity.
Qed.

Lemma english_analysis (raw : str) (st : locals) (kv : str * float)
  (r : dict float) :
  has_devanagari (strip (lower raw)) = false ->
  get_emotion raw = TeScores (kv :: r) ->
  existsb float_truthy (values (kv :: r)) = true ->
  analyse raw st
  = (combine st (argmax_from float_gt kv r)
       (emotion_scores (strip (lower raw))) (u "en"), None).
Proof.
  intros Hlang Hte Hany. unfold text_analysis, detect_language.
  rewrite Hlang, Hte, Hany. reflexivity.
Qed.

Lemma one_keyword_is_weak : (keyword_confidence 1 <? 0.3)%float = true.
Proof. vm_compute. reflexivity. Qed.

(** The selection of lines 147-158, for scores that are all positive. *)
Lemma combine_policy (st : locals) (te : str * float) (scores : dict nat)
  (l : str) :
  (forall e n, In (e, n) scores -> 0 < n) ->
  selection (text_signal (combine st te scores l)) te (argmax int_gt scores).
Proof.
  intros Hpos. unfold selection. destruct te as [te_emotion te_score].
  rewrite combine_signal. cbn [fst snd].
  destruct (argmax int_gt scores) as [[kwLabel kwScore]|] eqn:Hkw;
    [|reflexivity].
  apply argmax_in, Hpos in Hkw.
  fold (keyword_confidence kwScore).
  destruct ((2 <=? kwScore) || (0 <? kwScore) && (te_score <? 0.3)%float)
    eqn:Hcond.
  - apply lexicon_overrides_bool in Hcond. split.
    + split; [reflexivity | intros _; exact Hcond].
    + intros Hn. contradiction.
  - assert (Hn : ~ lexicon_overrides kwScore te_score).
    { intros H. apply lexicon_overrides_bool in H. congruence. }
    split; [|reflexivity]. split; [contradiction|].
    intros [= _ H]. exfalso.
    apply orb_false_iff in Hcond as [H2 Hweak].
    apply Nat.leb_gt in H2.
    assert (kwScore = 1) by lia. subst kwScore.
    rewrite H, one_keyword_is_weak in Hweak. discriminate Hweak.
Qed.

(** C5. For English text on which the classifier gives a score map that is
    not all zero, the text stage goes on without an answer, and its signal
    obeys [selection]: it is the classifier's (teLabel, teScore) when no
    keyword matched; and, when a keyword matched, the lexicon's (kwLabel,
    min(kwScore/5, 1.0)) exactly when kwScore >= 2 or (kwScore > 0 and
    teScore < 0.3), and the classifier's otherwise. *)
Theorem english_text_policy (data : request) (raw : str) (st : locals)
  (kv : str * float) (r : dict float) :
  req_text data = Some raw ->
  nonempty (strip raw) = true ->
  detect_language (strip (lower raw)) = u "en" ->
  get_emotion raw = TeScores (kv :: r) ->
  existsb float_truthy (values (kv :: r)) = true ->
  snd (text_stage data st) = None
  /\ selection (text_signal (fst (text_stage data st)))
       (argmax_from float_gt kv r)
       (argmax int_gt (emotion_scores (strip (lower raw)))).
Proof.
  intros Htext Hguard Hlang Hte Hany.
  apply detect_language_en in Hlang.
  assert (Hrun : text_stage data st
                 = (combine st (argmax_from float_gt kv r)
                      (emotion_scores (strip (lower raw))) (u "en"), None)).
  { unfold text_detection. rewrite Htext, Hguard.
    exact (english_analysis raw st kv r Hlang Hte Hany). }
  rewrite Hrun. cbn [fst snd]. split; [reflexivity|].
  apply combine_policy. intros e n. apply score_table_positive.
Qed.

(** C7. Whenever neither stage leaves a usable emotion, the answer is a 400
    with a non-empty error message; so it is for the empty body, and for a
    text in which no keyword occurs and on which the classifier gives
    all-zero scores. *)
Theorem no_signal_is_400 :
  (forall data,
     truthy (facial_emotion (fst (stages data))) = false ->
     truthy (text_emotion (fst (stages data))) = false ->
     exists msg dbg, handler data = Err400 msg dbg /\ nonempty msg = true)
  /\ handler empty_body = Err400 no_emotion None
  /\ (forall data raw scores,
        req_text data = Some raw ->
        nonempty (strip raw) = true ->
        emotion_scores (strip (lower raw)) = [] ->
        get_emotion raw = TeScores scores ->
        existsb float_truthy (values scores) = false ->
        handler data = Err400 no_text_emotion None).
Proof.
  split; [|split].
  - intros data Hf Ht. unfold detect_emotion.
    destruct (stages data) as [st [r|]] eqn:Hrun.
    + apply (text_detection_return data (facial_stage data init)).
      unfold run_stages in Hrun. now rewrite Hrun.
    + cbn [fst] in Hf, Ht. unfold fuse. rewrite Hf, Ht. cbn [andb].
      exists no_emotion, None. split; reflexivity.
  - reflexivity.
  - intros data raw scores Htext Hguard Hkw Hte Hzero.
    unfold detect_emotion, run_stages, text_detection.
    rewrite Htext, Hguard. unfold text_analysis. rewrite Hkw, Hte.
    destruct (has_devanagari (strip (lower raw))); [reflexivity|].
    destruct scores as [|kv r]; [reflexivity|].
    rewrite Hzero. reflexivity.
Qed.

(** Without a text field the handler never binds [language]: a facial
    emotion then ends in the exception of line 205, and no facial emotion
    in the 400 of line 224. *)
Lemma no_text_response (data : request) :
  req_text data = None ->
  handler data
  = if truthy (facial_emotion (facial_stage data init))
    then Crash500 (u "UnboundLocalError")
    else Err400 no_emotion None.
Proof.
  intros Htext. unfold detect_emotion, run_stages, text_detection.
  rewrite Htext.
  destruct (facial_detection_keeps_text data init) as [Hsig Hlang].
  injection Hsig as Hte _.
  unfold fuse. rewrite Hte. cbn [text_emotion init truthy andb].
  rewrite andb_false_r.
  destruct (facial_emotion (facial_stage data init)) as [e|] eqn:He;
    cbn [truthy]; [|reflexivity].
  destruct (nonempty e) eqn:Hne; [|reflexivity].
  unfold respond. rewrite Hne, Hlang. reflexivity.
Qed.

Lemma blank_text_skipped (data : request) (ws : str) (st : locals) :
  req_text data = Some ws ->
  forallb isspace ws = true ->
  text_stage data st = (st, None).
Proof.
  intros Htext Hws. unfold text_detection.
  now rewrite Htext, (strip_blank ws Hws).
Qed.

End Endpoint.

(** ** Blank text and missing text *)

(** C10. A text of whitespace only is skipped by the text stage, which
    leaves the locals as they are and consults neither the classifier nor
    the lexicon: the answer is the one to the same request without its text
    field, whatever [str.lower] and the classifier are; and without a
    facial emotion it is the 400 of line 224. *)
Theorem blank_text_is_no_text (lower lower' : str -> str)
  (get_emotion get_emotion' : str -> te_result)
  (deepface : option (str -> vision)) (sp : option (str -> search_result))
  (img : option str) (ws : str) :
  forallb isspace ws = true ->
  let blank_text := {| req_image := img; req_text := Some ws |} in
  let no_text := {| req_image := img; req_text := None |} in
  (forall st, text_detection lower get_emotion blank_text st = (st, None))
  /\ detect_emotion lower get_emotion deepface sp blank_text
     = detect_emotion lower' get_emotion' deepface sp no_text
  /\ (truthy (facial_emotion (facial_detection deepface blank_text init))
      = false ->
      detect_emotion lower get_emotion deepface sp blank_text
      = Err400 no_emotion None).
Proof.
  intros Hws blank_text no_text.
  assert (Hskip : forall st,
             text_detection lower get_emotion blank_text st = (st, None)).
  { intros st. now apply (blank_text_skipped lower get_emotion blank_text ws). }
  assert (Hsame : detect_emotion lower get_emotion deepface sp blank_text
                  = detect_emotion lower' get_emotion' deepface sp no_text).
  { rewrite (no_text_response lower' get_emotion' deepface sp no_text eq_refl).
    rewrite <- (no_text_response lower get_emotion deepface sp no_text eq_refl).
    unfold detect_emotion, run_stages. rewrite Hskip. reflexivity. }
  split; [exact Hskip|]. split; [exact Hsame|].
  intros Hf. rewrite Hsame.
  rewrite (no_text_response lower' get_emotion' deepface sp no_text eq_refl).
  change (facial_detection deepface no_text init)
    with (facial_detection deepface blank_text init).
  now rewrite Hf.
Qed.

Lemma blank_text_is_no_text_witness :
  detect_emotion lower_ascii te_happy (Some face_happy) None (text_only blank)
  = detect_emotion lower_ascii te_zero (Some face_happy) None empty_body.
Proof.
  exact (proj1 (proj2 (blank_text_is_no_text lower_ascii lower_ascii te_happy
                         te_zero (Some face_happy) None None blank eq_refl))).
Defined.

(** C3, on the failing request: an image that decodes, in which DeepFace
    finds a happy face, and no text. The facial signal is there, and the
    handler ends in the exception of line 205, where [language] is read
    unbound. So does it for every request without text whose image
    DeepFace gives a non-empty score map for, whatever the scores. *)
Theorem facial_only_unbound_language :
  facial_signal (facial_detection (Some face_happy) image_only init)
  = (Some (u "happy"), (92.5 / 100)%float)
  /\ fuse (facial_detection (Some face_happy) image_only init)
     = (Some (u "happy"), (92.5 / 100)%float, Some (u "facial"))
  /\ detect_emotion lower_ascii te_zero (Some face_happy) None image_only
     = Crash500 (u "UnboundLocalError")
  /\ (forall lower get_emotion analyze sp img result kv r dominant,
        analyze img = Analyzed result ->
        first_result result = Some (FaceDict (Some (kv :: r)) dominant) ->
        nonempty (fst (argmax_from float_gt kv r)) = true ->
        detect_emotion lower get_emotion (Some analyze) sp
          {| req_image := Some img; req_text := None |}
        = Crash500 (u "UnboundLocalError")).
Proof.
  split; [vm_compute; reflexivity|].
  split; [vm_compute; reflexivity|].
  split; [vm_compute; reflexivity|].
  intros lower get_emotion analyze sp img result kv r dominant Han Hres Hne.
  rewrite (no_text_response lower get_emotion (Some analyze) sp
             {| req_image := Some img; req_text := None |} eq_refl).
  unfold facial_detection. cbn [req_image]. rewrite Han, Hres.
  destruct (argmax_from float_gt kv r) as [label score].
  cbn [fst] in Hne. cbn [set_facial facial_emotion truthy].
  now rewrite Hne.
Qed.

(** ** Where the code departs from the specification's wording *)


(** C4 as worded fails on a text that is not empty but blank: the text
    stage is skipped and [language] stays unbound. *)
Lemma blank_text_has_no_language :
  nonempty blank = true
  /\ has_devanagari blank = false
  /\ language (fst (run_stages lower_ascii te_zero None (text_only blank)))
     = None
  /\ detect_emotion lower_ascii te_zero (Some face_happy) None
       {| req_image := Some photo; req_text := Some blank |}
     = Crash500 (u "UnboundLocalError").
Proof. repeat split; vm_compute; reflexivity. Qed.

(** ** Instances *)


Lemma language_of_text_witness :
  language (fst (run_stages lower_ascii te_happy None (text_only english_happy)))
  = Some (u "en").
Proof.
  exact (proj1 (language_of_text lower_ascii te_happy None None
                  lower_ascii_devanagari (text_only english_happy)
                  english_happy eq_refl eq_refl)).
Defined.

Lemma english_text_policy_witness :
  snd (text_detection lower_ascii te_happy (text_only english_happy) init)
  = None
  /\ selection
       (text_signal
          (fst (text_detection lower_ascii te_happy (text_only english_happy)
                  init)))
       (argmax_from float_gt (u "Happy", 0.5%float)
          [ (u "Angry", 0%float); (u "Surprise", 0.25%float);
            (u "Sad", 0%float); (u "Fear", 0.25%float) ])
       (argmax int_gt (emotion_scores (strip (lower_ascii english_happy)))).
Proof.
  apply (english_text_policy lower_ascii te_happy (text_only english_happy)
           english_happy init);
    vm_compute; reflexivity.
Defined.

Lemma no_signal_is_400_witness :
  detect_emotion lower_ascii te_zero None None (text_only no_keyword)
  = Err400 no_text_emotion None.
Proof.
  apply (proj2 (proj2 (no_signal_is_400 lower_ascii te_zero None None))
           (text_only no_keyword) no_keyword
           [ (u "Happy", 0%float); (u "Angry", 0%float);
             (u "Surprise", 0%float); (u "Sad", 0%float);
             (u "Fear", 0%float) ]);
    reflexivity.
Defined.

(** * Further properties of the handler *)

(** ** The guard of the text stage *)

Lemma existsb_nonspace (s : str) :
  existsb nonspace s = negb (forallb isspace s).
Proof.
  induction s as [|c s IH]; simpl; [reflexivity|].
  unfold nonspace at 1. rewrite IH. now destruct (isspace c).
Qed.

Lemma forallb_rev {A} (f : A -> bool) (l : list A) :
  forallb f (rev l) = forallb f l.
Proof.
  induction l as [|x l IH]; simpl; [reflexivity|].
  rewrite forallb_app, IH. simpl. rewrite andb_true_r. apply andb_comm.
Qed.

Lemma lstrip_nil (s : str) : lstrip s = [] <-> forallb isspace s = true.
Proof.
  split; [|apply lstrip_blank].
  induction s as [|c s IH]; simpl; [reflexivity|].
  destruct (isspace c); [exact IH | discriminate].
Qed.

Lemma lstrip_all_space (s : str) :
  forallb isspace (lstrip s) = true -> lstrip s = [].
Proof.
  induction s as [|c s IH]; simpl; [reflexivity|].
  destruct (isspace c) eqn:Hc; [exact IH|].
  simpl. now rewrite Hc.
Qed.

Lemma strip_nil (s : str) : strip s = [] <-> forallb isspace s = true.
Proof.
  split; [|apply strip_blank].
  unfold strip, rstrip. intros H.
  apply (f_equal (@rev codepoint)) in H. rewrite rev_involutive in H.
  simpl in H. apply lstrip_nil in H. rewrite forallb_rev in H.
  apply lstrip_nil. now apply lstrip_all_space.
Qed.

Lemma nonempty_strip (s : str) : nonempty (strip s) = existsb nonspace s.
Proof.
  rewrite existsb_nonspace.
  destruct (forallb isspace s) eqn:E.
  - now rewrite (strip_blank s E).
  - destruct (strip s) eqn:S; [|reflexivity].
    apply strip_nil in S. congruence.
Qed.

(** X1. The text stage analyses the text of a request exactly when it
    holds a code point that is not whitespace; otherwise it leaves the
    locals unchanged and does not answer. *)
Theorem text_stage_guard (lower : str -> str) (get_emotion : str -> te_result)
  (img : option str) (raw : str) (st : locals) :
  text_detection lower get_emotion {| req_image := img; req_text := Some raw |} st
  = if existsb nonspace raw
    then text_analysis lower get_emotion raw st
    else (st, None).
Proof.
  unfold text_detection. cbn [req_text]. now rewrite nonempty_strip.
Qed.

(** ** What the stages leave *)

Lemma fuse_emotion_truthy (st : locals) :
  truthy (fst (fst (fuse st)))
  = truthy (facial_emotion st) || truthy (text_emotion st).
Proof.
  unfold fuse.
  destruct (truthy (facial_emotion st)) eqn:Hf,
           (truthy (text_emotion st)) eqn:Ht; cbn [andb orb fst].
  - destruct (text_confidence st <=? facial_confidence st)%float;
      cbn [fst]; assumption.
  - exact Hf.
  - exact Ht.
  - reflexivity.
Qed.

Lemma fuse_cases (st : locals) :
  truthy (fst (fst (fuse st))) = true ->
  (fst (fuse st) = facial_signal st \/ fst (fuse st) = text_signal st)
  /\ (snd (fuse st) = Some (u "facial") \/ snd (fuse st) = Some (u "text")
      \/ snd (fuse st) = Some (u "combined")).
Proof.
  unfold fuse, facial_signal, text_signal.
  destruct (truthy (facial_emotion st)), (truthy (text_emotion st));
    cbn [andb].
  - destruct (text_confidence st <=? facial_confidence st)%float.
    + destruct (text_confidence st <? facial_confidence st)%float;
        cbn [fst snd]; auto.
    + destruct (facial_confidence st <? text_confidence st)%float;
        cbn [fst snd]; auto.
  - cbn [fst snd]; auto.
  - cbn [fst snd]; auto.
  - cbn [fst snd truthy]. discriminate.
Qed.

Lemma fuse_text_only (st : locals) :
  truthy (facial_emotion st) = false ->
  truthy (text_emotion st) = true ->
  fuse st = (text_emotion st, text_confidence st, Some (u "text")).
Proof. intros Hf Ht. unfold fuse. now rewrite Hf, Ht. Qed.

Lemma mood_of_in_vocabulary (lower : str -> str) (e : str) :
  In (mood_of lower e) MoodVocabulary.
Proof.
  unfold mood_of. apply get_or_in.
  - unfold MoodVocabulary.
    repeat (constructor; [simpl; auto 12|]). constructor.
  - simpl; auto 12.
Qed.

(** Reflexivity and totality of [<=] on floats that compare. *)
Lemma SFcompare_refl (x : spec_float) :
  x <> S754_nan -> SFcompare x x = Some Eq.
Proof.
  destruct x as [s|s| |s m e]; simpl; intros H.
  - reflexivity.
  - now destruct s.
  - congruence.
  - destruct s; rewrite Z.compare_refl;
      change (PosDef.Pos.compare_cont Eq m m) with (Pos.compare m m);
      now rewrite Pos.compare_refl.
Qed.

Lemma SFcompare_not_nan (x y : spec_float) :
  SFcompare x y <> None -> x <> S754_nan /\ y <> S754_nan.
Proof.
  destruct x, y; simpl; intros H; split; congruence.
Qed.

Lemma comparable_refl (x y : float) :
  comparable x y = true ->
  (x <=? x)%float = true /\ (y <=? y)%float = true.
Proof.
  unfold comparable. rewrite !leb_spec. unfold SFleb.
  rewrite (SFcompare_antisym (Prim2SF x) (Prim2SF y)).
  destruct (SFcompare (Prim2SF x) (Prim2SF y)) as [c|] eqn:E;
    [|discriminate].
  intros _.
  assert (N : SFcompare (Prim2SF x) (Prim2SF y) <> None) by congruence.
  apply SFcompare_not_nan in N as [Nx Ny].
  now rewrite (SFcompare_refl _ Nx), (SFcompare_refl _ Ny).
Qed.

Section Further.

Variable lower : str -> str.
Variable get_emotion : str -> te_result.
Variable deepface : option (str -> vision).
Variable sp : option (str -> search_result).

Local Abbreviation analyse' := (text_analysis lower get_emotion).
Local Abbreviation text_stage' := (text_detection lower get_emotion).
Local Abbreviation facial_stage' := (facial_detection deepface).
Local Abbreviation stages' := (run_stages lower get_emotion deepface).
Local Abbreviation handler' := (detect_emotion lower get_emotion deepface sp).

Lemma keywords_only_shape (st : locals) (scores : dict nat) (l : str) :
  (exists e n, argmax int_gt scores = Some (e, n)
               /\ keywords_only st scores l
                  = (set_text st e (keyword_confidence n) l, None))
  \/ (scores = []
      /\ keywords_only st scores l
         = (set_language st l, Some (Err400 no_text_emotion None))).
Proof.
  unfold keywords_only. destruct scores as [|kv r]; [now right|].
  left. cbn [argmax]. destruct (argmax_from int_gt kv r) as [e n].
  now exists e, n.
Qed.

(** The analysis either sets the text signal and goes on, or binds the
    language only and answers. *)
Lemma analysis_shape (raw : str) (st : locals) :
  (exists e c, analyse' raw st
               = (set_text st e c (detect_language (strip (lower raw))), None))
  \/ (exists r, analyse' raw st
                = (set_language st (detect_language (strip (lower raw))),
                   Some r)).
Proof.
  assert (K : forall scores l,
             (exists e c, keywords_only st scores l = (set_text st e c l, None))
             \/ (exists r, keywords_only st scores l
                           = (set_language st l, Some r))).
  { intros scores l.
    destruct (keywords_only_shape st scores l) as [[e [n [_ H]]]|[_ H]].
    - left. now exists e, (keyword_confidence n).
    - right. eexists. exact H. }
  unfold text_analysis.
  destruct (has_devanagari (strip (lower raw))); [apply K|].
  destruct (get_emotion raw) as [e tb|[|kv r]].
  - right. eexists. reflexivity.
  - apply K.
  - destruct (existsb float_truthy (values (kv :: r))); [|apply K].
    left. unfold combine.
    destruct (argmax_from float_gt kv r) as [te_emotion te_score].
    destruct (argmax int_gt _) as [[ke ks]|];
      [|eexists _, _; reflexivity].
    destruct (_ || _); eexists _, _; reflexivity.
Qed.

Lemma text_stage_shape (data : request) (st : locals) :
  (text_skipped data = true /\ text_stage' data st = (st, None))
  \/ (text_skipped data = false
      /\ exists l, (l = u "hi" \/ l = u "en")
         /\ ((exists e c, text_stage' data st = (set_text st e c l, None))
             \/ (exists r, text_stage' data st = (set_language st l, Some r)))).
Proof.
  unfold text_skipped, text_detection.
  destruct (req_text data) as [raw|]; [|now left].
  destruct (nonempty (strip raw)); [|now left].
  right. split; [reflexivity|].
  exists (detect_language (strip (lower raw))). split.
  - unfold detect_language. destruct (has_devanagari _); auto.
  - destruct (analysis_shape raw st) as [[e [c H]]|[r H]].
    + left. eexists _, _. exact H.
    + right. eexists. exact H.
Qed.

(** X2. The two stages do not interfere: the text stage never changes the
    facial signal, and the facial stage never changes the text signal nor
    binds the language. *)
Theorem stages_do_not_interfere (data : request) (st : locals) :
  facial_signal (fst (text_stage' data st)) = facial_signal st
  /\ text_signal (facial_stage' data st) = text_signal st
  /\ language (facial_stage' data st) = language st.
Proof.
  split; [|apply facial_detection_keeps_text].
  destruct (text_stage_shape data st)
    as [[_ H]|[_ [l [_ [[e [c H]]|[r H]]]]]]; now rewrite H.
Qed.

(** ** Which answer the handler gives *)

Lemma respond_bound (st : locals) (e l : str) (c : float) (m : option str) :
  nonempty e = true ->
  language st = Some l ->
  respond lower sp st (Some e, c, m)
  = Ok200 {| r_emotion := lower e;
             r_mood := mood_of lower e;
             r_language := l;
             r_playlists := get_spotify_playlists sp (mood_of lower e) l;
             r_method := m;
             r_confidence := c;
             r_facial_emotion := facial_emotion st;
             r_facial_confidence := facial_confidence st;
             r_text_emotion := text_emotion st;
             r_text_confidence := text_confidence st |}.
Proof. intros He Hl. unfold respond. now rewrite He, Hl. Qed.

Lemma respond_no_emotion (st : locals) (e : option str) (c : float)
  (m : option str) :
  truthy e = false -> respond lower sp st (e, c, m) = Err400 no_emotion None.
Proof.
  unfold respond. destruct e as [e|]; [|reflexivity].
  cbn [truthy]. now intros ->.
Qed.

Lemma respond_unbound (st : locals) (e : option str) (c : float)
  (m : option str) :
  truthy e = true -> language st = None ->
  respond lower sp st (e, c, m) = Crash500 (u "UnboundLocalError").
Proof.
  unfold respond. destruct e as [e|]; [|discriminate].
  cbn [truthy]. now intros -> ->.
Qed.

Lemma skipped_response (data : request) :
  text_skipped data = true ->
  handler' data
  = if truthy (facial_emotion (facial_stage' data init))
    then Crash500 (u "UnboundLocalError")
    else Err400 no_emotion None.
Proof.
  intros Hskip. unfold detect_emotion, run_stages.
  destruct (text_stage_shape data (facial_stage' data init))
    as [[_ H]|[H _]]; [|congruence].
  rewrite H.
  destruct (facial_detection_keeps_text deepface data init) as [Hsig Hlang].
  injection Hsig as Hte _.
  pose proof (fuse_emotion_truthy (facial_stage' data init)) as Hf.
  rewrite Hte in Hf. cbn [text_emotion init truthy] in Hf.
  rewrite orb_false_r in Hf.
  destruct (fuse (facial_stage' data init)) as [[e c] m]. cbn [fst] in Hf.
  destruct (truthy (facial_emotion (facial_stage' data init))).
  - now apply respond_unbound.
  - now apply respond_no_emotion.
Qed.

Lemma analysed_state (data : request) (st : locals) :
  stages' data = (st, None) ->
  text_skipped data = false ->
  exists e c l,
    (l = u "hi" \/ l = u "en")
    /\ st = set_text (facial_stage' data init) e c l.
Proof.
  unfold run_stages. intros Hrun Hskip.
  destruct (text_stage_shape data (facial_stage' data init))
    as [[H _]|[_ [l [Hl [[e [c H]]|[r H]]]]]]; [congruence| |congruence].
  exists e, c, l. split; [exact Hl|]. congruence.
Qed.

Lemma respond_never_raises_bound (st : locals)
  (fused : option str * float * option str) (l e : str) :
  language st = Some l -> respond lower sp st fused <> Crash500 e.
Proof.
  intros Hl. destruct fused as [[[x|] c] m]; unfold respond; [|discriminate].
  rewrite Hl. destruct (nonempty x); discriminate.
Qed.

(** For string fields: the handler lets an exception out exactly when the
    text stage was skipped and the facial stage found an emotion. *)
Lemma crash_iff_strings (data : request) (e : str) :
  handler' data = Crash500 e
  <-> e = u "UnboundLocalError"
      /\ text_skipped data = true
      /\ truthy (facial_emotion (facial_stage' data init)) = true.
Proof.
  split.
  - intros H. destruct (text_skipped data) eqn:Hskip.
    + rewrite (skipped_response data Hskip) in H.
      destruct (truthy _); [|discriminate H].
      injection H as <-. now repeat split.
    + exfalso. unfold detect_emotion in H.
      destruct (stages' data) as [st [r|]] eqn:Hrun.
      * subst r.
        assert (Hr : snd (text_stage' data (facial_stage' data init))
                     = Some (Crash500 e)).
        { unfold run_stages in Hrun. now rewrite Hrun. }
        apply text_detection_return in Hr as [msg [dbg [Hr _]]].
        discriminate Hr.
      * destruct (analysed_state data st Hrun Hskip) as [x [c [l [_ ->]]]].
        revert H. now apply (respond_never_raises_bound _ _ l).
  - intros [-> [Hskip Hf]]. rewrite (skipped_response data Hskip).
    now rewrite Hf.
Qed.

(** X4. Whenever the text stage leaves a usable emotion, the answer is a
    200 that carries the fused emotion lower-cased, its mood, the language
    of the text, the fused confidence and method, and both signals as the
    stages left them. *)
Theorem text_signal_answers_200 (data : request) (st : locals) :
  stages' data = (st, None) ->
  truthy (text_emotion st) = true ->
  exists e l,
    fst (fst (fuse st)) = Some e
    /\ language st = Some l
    /\ handler' data
       = Ok200 {| r_emotion := lower e;
                  r_mood := mood_of lower e;
                  r_language := l;
                  r_playlists := get_spotify_playlists sp (mood_of lower e) l;
                  r_method := snd (fuse st);
                  r_confidence := snd (fst (fuse st));
                  r_facial_emotion := facial_emotion st;
                  r_facial_confidence := facial_confidence st;
                  r_text_emotion := text_emotion st;
                  r_text_confidence := text_confidence st |}.
Proof.
  intros Hrun Ht.
  assert (Hskip : text_skipped data = false).
  { destruct (text_skipped data) eqn:Hskip; [|reflexivity].
    unfold run_stages in Hrun.
    destruct (text_stage_shape data (facial_stage' data init))
      as [[_ H]|[H _]]; [|congruence].
    rewrite H in Hrun. injection Hrun as <-.
    destruct (facial_detection_keeps_text deepface data init) as [Hsig _].
    injection Hsig as Hte _. rewrite Hte in Ht. discriminate Ht. }
  destruct (analysed_state data st Hrun Hskip) as [x [c [l [_ Hst]]]].
  assert (Hl : language st = Some l) by now rewrite Hst.
  pose proof (fuse_emotion_truthy st) as Hf.
  rewrite Ht, orb_true_r in Hf.
  unfold detect_emotion. rewrite Hrun.
  destruct (fuse st) as [[[e|] cf] m]; cbn [fst snd] in *; [|discriminate Hf].
  exists e, l. split; [reflexivity|]. split; [exact Hl|].
  now apply respond_bound.
Qed.

(** X5. A request without an image field, when it is answered 200, is
    answered with method 'text', no facial emotion, the text emotion
    lower-cased as the emotion and the text confidence as the confidence. *)
Theorem text_only_answer (raw : str) (b : body) :
  handler' {| req_image := None; req_text := Some raw |} = Ok200 b ->
  r_method b = Some (u "text")
  /\ r_facial_emotion b = None
  /\ r_confidence b = r_text_confidence b
  /\ exists e, r_text_emotion b = Some e /\ r_emotion b = lower e.
Proof.
  intros H.
  destruct (text_skipped {| req_image := None; req_text := Some raw |})
    eqn:Hskip.
  - rewrite (skipped_response _ Hskip) in H.
    destruct (truthy _); discriminate H.
  - unfold detect_emotion in H.
    destruct (stages' _) as [st [r|]] eqn:Hrun.
    + subst r.
      assert (Hr : snd (stages' {| req_image := None; req_text := Some raw |})
                   = Some (Ok200 b)) by now rewrite Hrun.
      apply text_detection_return in Hr as [msg [dbg [Hr _]]].
      discriminate Hr.
    + destruct (analysed_state _ st Hrun Hskip) as [e [c [l [_ Hst]]]].
      change (facial_stage' {| req_image := None; req_text := Some raw |} init)
        with init in Hst.
      subst st. destruct (nonempty e) eqn:He.
      * rewrite fuse_text_only in H by (try reflexivity; exact He).
        cbn [text_emotion text_confidence set_text] in H.
        rewrite (respond_bound (set_text init e c l) e l c (Some (u "text"))
                   He eq_refl) in H.
        injection H as <-.
        cbn [r_method r_facial_emotion r_confidence r_text_confidence
             r_text_emotion r_emotion set_text facial_emotion text_emotion
             text_confidence init].
        repeat split. now exists e.
      * pose proof (fuse_emotion_truthy (set_text init e c l)) as Hf.
        cbn [set_text facial_emotion text_emotion init truthy orb] in Hf.
        rewrite He in Hf.
        destruct (fuse (set_text init e c l)) as [[x cf] m].
        cbn [fst] in Hf. rewrite (respond_no_emotion _ x cf m Hf) in H.
        discriminate H.
Qed.

(** X6. Every 200 answer is well formed: its language is 'hi' or 'en', its
    mood is a member of the MoodVocabulary and is the mood of its emotion,
    its method is 'facial', 'text' or 'combined', its text emotion is not
    null, its emotion and confidence are those of one of the two signals it
    reports, and its playlists are those of its mood and language. *)
Theorem answer_well_formed (data : request) (b : body) :
  handler' data = Ok200 b ->
  (r_language b = u "hi" \/ r_language b = u "en")
  /\ In (r_mood b) MoodVocabulary
  /\ (r_method b = Some (u "facial") \/ r_method b = Some (u "text")
      \/ r_method b = Some (u "combined"))
  /\ r_text_emotion b <> None
  /\ r_playlists b = get_spotify_playlists sp (r_mood b) (r_language b)
  /\ (exists e,
        ((r_facial_emotion b, r_facial_confidence b) = (Some e, r_confidence b)
         \/ (r_text_emotion b, r_text_confidence b) = (Some e, r_confidence b))
        /\ r_emotion b = lower e /\ r_mood b = mood_of lower e).
Proof.
  intros H.
  destruct (text_skipped data) eqn:Hskip.
  { rewrite (skipped_response _ Hskip) in H.
    destruct (truthy _); discriminate H. }
  unfold detect_emotion in H.
  destruct (stages' data) as [st [r|]] eqn:Hrun.
  { subst r.
    assert (Hr : snd (stages' data) = Some (Ok200 b)) by now rewrite Hrun.
    apply text_detection_return in Hr as [msg [dbg [Hr _]]].
    discriminate Hr. }
  destruct (analysed_state _ st Hrun Hskip) as [x [c [l [Hl Hst]]]].
  assert (Hlang : language st = Some l) by now rewrite Hst.
  assert (Htext : text_emotion st = Some x) by now rewrite Hst.
  destruct (truthy (fst (fst (fuse st)))) eqn:Hf.
  - destruct (fuse_cases st Hf) as [Hpick Hmeth].
    destruct (fuse st) as [[[e|] cf] m]; cbn [fst snd truthy] in *;
      [|discriminate Hf].
    rewrite (respond_bound st e l cf m Hf Hlang) in H.
    injection H as <-.
    cbn [r_language r_mood r_method r_text_emotion r_playlists
         r_facial_emotion r_facial_confidence r_text_confidence r_confidence
         r_emotion].
    split; [exact Hl|]. split; [apply mood_of_in_vocabulary|].
    split; [exact Hmeth|]. split; [congruence|]. split; [reflexivity|].
    exists e. split; [|now split].
    unfold facial_signal, text_signal in Hpick.
    destruct Hpick as [Hp|Hp]; [left | right]; now symmetry.
  - destruct (fuse st) as [[e cf] m]. cbn [fst] in Hf.
    rewrite (respond_no_emotion st e cf m Hf) in H. discriminate H.
Qed.

(** X7. The catalog has no say in the emotion: two handlers that differ
    only in their Spotify client give answers that differ in nothing but
    the playlists, with the same status. *)
Theorem catalog_only_fills_playlists (sp' : option (str -> search_result))
  (data : request) :
  without_playlists (handler' data)
  = without_playlists (detect_emotion lower get_emotion deepface sp' data).
Proof.
  unfold detect_emotion.
  destruct (stages' data) as [st [r|]]; [reflexivity|].
  destruct (fuse st) as [[[e|] c] m]; [|reflexivity].
  unfold respond. destruct (nonempty e); [|reflexivity].
  destruct (language st); reflexivity.
Qed.

(** X8. When both signals are present and their confidences compare, the
    fused confidence is one of the two and is not below either. *)
Theorem fused_confidence_is_max (st : locals) :
  truthy (facial_emotion st) = true ->
  truthy (text_emotion st) = true ->
  comparable (facial_confidence st) (text_confidence st) = true ->
  (facial_confidence st <=? snd (fst (fuse st)))%float = true
  /\ (text_confidence st <=? snd (fst (fuse st)))%float = true
  /\ (snd (fst (fuse st)) = facial_confidence st
      \/ snd (fst (fuse st)) = text_confidence st).
Proof.
  intros Hf Ht Hc. destruct (comparable_refl _ _ Hc) as [Hff Htt].
  unfold fuse. rewrite Hf, Ht. cbn [andb].
  destruct (text_confidence st <=? facial_confidence st)%float eqn:Hle;
    cbn [fst snd].
  - repeat split; auto.
  - unfold comparable in Hc. rewrite Hle, orb_false_r in Hc.
    repeat split; auto.
Qed.

(** X9. On English text an exception of the classifier is answered 400
    with the exception and its trace, whatever keywords the text holds and
    whatever the facial stage found. *)
Theorem classifier_exception_is_400 (data : request) (raw e tb : str) :
  req_text data = Some raw ->
  nonempty (strip raw) = true ->
  has_devanagari (strip (lower raw)) = false ->
  get_emotion raw = TeRaises e tb ->
  handler' data
  = Err400 (u "Text analysis failed. Please try again.") (Some (e, tb)).
Proof.
  intros Htext Hguard Hlang Hte.
  unfold detect_emotion, run_stages, text_detection.
  rewrite Htext, Hguard. unfold text_analysis. now rewrite Hlang, Hte.
Qed.

End Further.

(** ** Playlists *)

Lemma three_fullb_spec (l : list playlist) :
  three_fullb l = true -> three_full l.
Proof.
  unfold three_fullb, three_full. intros H.
  apply andb_true_iff in H as [Hlen Hall]. apply Nat.eqb_eq in Hlen.
  split; [exact Hlen|]. apply Forall_forall. intros p Hp.
  rewrite forallb_forall in Hall. specialize (Hall p Hp).
  apply andb_true_iff in Hall as [Hnu Hi].
  apply andb_true_iff in Hnu as [Hn Hu].
  repeat split.
  - intros E. rewrite E in Hn. discriminate Hn.
  - intros E. rewrite E in Hu. discriminate Hu.
  - intros E. rewrite E in Hi. discriminate Hi.
Qed.

Lemma static_tables_full (language : str) :
  Forall three_full (values (static_table language))
  /\ three_full (get_or (static_table language) (u "chill") []).
Proof.
  assert (H : forall t,
             forallb three_fullb (values t) = true ->
             three_fullb (get_or t (u "chill") []) = true ->
             Forall three_full (values t)
             /\ three_full (get_or t (u "chill") [])).
  { intros t Hall Hchill. split; [|now apply three_fullb_spec].
    apply Forall_forall. intros l Hl. apply three_fullb_spec.
    rewrite forallb_forall in Hall. now apply Hall. }
  unfold static_table. destruct (str_eqb language (u "hi"));
    apply H; vm_compute; reflexivity.
Qed.

Lemma static_playlists_full (mood language : str) :
  three_full (get_spotify_playlists None mood language).
Proof.
  destruct (static_tables_full language) as [Hall Hchill].
  unfold get_spotify_playlists. unfold static_table in Hall, Hchill.
  destruct (str_eqb language (u "hi")); now apply get_or_in.
Qed.

Lemma spotify_client_missing (client_id client_secret : option str)
  (connect : str -> str -> str -> search_result) :
  truthy client_id && truthy client_secret = false ->
  spotify_client client_id client_secret connect = None.
Proof.
  unfold spotify_client.
  destruct client_id as [i|], client_secret as [s|]; cbn [truthy];
    try reflexivity.
  now intros ->.
Qed.

Lemma answer_playlists (lower : str -> str) (get_emotion : str -> te_result)
  (deepface : option (str -> vision)) (sp : option (str -> search_result))
  (data : request) (b : body) :
  detect_emotion lower get_emotion deepface sp data = Ok200 b ->
  r_playlists b = get_spotify_playlists sp (r_mood b) (r_language b).
Proof.
  intros H. apply detect_emotion_ok in H as [st [_ H]].
  destruct (fuse st) as [[[e|] c] m]; unfold respond in H; [|discriminate H].
  destruct (nonempty e); [|discriminate H].
  destruct (language st); [|discriminate H].
  now injection H as <-.
Qed.

(** X10. When a Spotify credential is unset or empty the module has no
    client, and then every mood and every language, known or not, gets
    exactly three playlists, each with a name, a url and an image; so does
    every 200 answer of the handler. *)
Theorem offline_always_three (client_id client_secret : option str)
  (connect : str -> str -> str -> search_result) :
  truthy client_id && truthy client_secret = false ->
  (forall mood language,
     three_full
       (get_spotify_playlists
          (spotify_client client_id client_secret connect) mood language))
  /\ (forall lower get_emotion deepface data b,
        detect_emotion lower get_emotion deepface
          (spotify_client client_id client_secret connect) data = Ok200 b ->
        three_full (r_playlists b)).
Proof.
  intros H. rewrite (spotify_client_missing _ _ connect H). split.
  - apply static_playlists_full.
  - intros lower get_emotion deepface data b Hb.
    rewrite (answer_playlists _ _ _ _ _ _ Hb). apply static_playlists_full.
Qed.

Lemma offline_always_three_witness :
  three_full
    (get_spotify_playlists
       (spotify_client (Some (u "id")) None (fun _ _ => search_two))
       (u "no such mood") (u "hi")).
Proof.
  exact (proj1 (offline_always_three (Some (u "id")) None
                  (fun _ _ => search_two) eq_refl)
           (u "no such mood") (u "hi")).
Defined.

(** X11. Every mood the lookup can give has a list of its own in the
    English static table and a non-empty list of search terms: for the
    moods of the handler the 'chill' default of line 291 and the [mood]
    default of line 306 are never needed, and the online query is the
    first search term of the mood. *)
Theorem moods_have_playlists_and_queries (lower : str -> str) (e : str) :
  (exists l, get sample_playlists (mood_of lower e) = Some l)
  /\ (exists q qs,
        get search_queries (mood_of lower e) = Some (q :: qs)
        /\ hd (mood_of lower e)
             (get_or search_queries (mood_of lower e) [mood_of lower e])
           = q).
Proof.
  pose proof (mood_of_in_vocabulary lower e) as H.
  revert H. generalize (mood_of lower e) as mood. intros mood H.
  unfold MoodVocabulary in H. simpl in H.
  repeat (destruct H as [<-|H];
          [split; [eexists; vm_compute; reflexivity
                  | eexists _, _; split; vm_compute; reflexivity]|]).
  contradiction.
Qed.

(** X12. With a client, the language plays no part; a search that fails
    gives the empty list, and a search that answers gives one descriptor
    per item, in the order of the items, with the item's name and url and
    its first image if it has one. *)
Theorem online_playlists (search : str -> search_result) (mood : str) :
  (forall l1 l2,
     get_spotify_playlists (Some search) mood l1
     = get_spotify_playlists (Some search) mood l2)
  /\ (forall language,
        search (hd mood (get_or search_queries mood [mood])) = SearchRaises ->
        get_spotify_playlists (Some search) mood language = [])
  /\ (forall language items,
        search (hd mood (get_or search_queries mood [mood]))
        = SearchItems items ->
        map name (get_spotify_playlists (Some search) mood language)
        = map item_name items
        /\ map url (get_spotify_playlists (Some search) mood language)
           = map item_url items
        /\ map image (get_spotify_playlists (Some search) mood language)
           = map (fun i => hd_error (item_images i)) items).
Proof.
  split; [reflexivity|]. split.
  - intros language H. unfold get_spotify_playlists. now rewrite H.
  - intros language items H. unfold get_spotify_playlists. rewrite H.
    rewrite !map_map. repeat split.
Qed.

Lemma online_playlists_witness :
  map name (get_spotify_playlists (Some search_two) (u "happy") (u "hi"))
  = [u "Happy Hits"; u "Good Vibes"].
Proof.
  exact (proj1 (proj2 (proj2 (online_playlists search_two (u "happy")))
                  (u "hi") _ eq_refl)).
Defined.

(** ** The lexicon's winner *)

(** [max] over int scores, from a first item on: the winner splits the
    items into strictly smaller ones before it and no greater ones after. *)
Lemma argmax_from_first_max (d : dict nat) (best : str * nat) :
  exists pre post,
    best :: d = pre ++ argmax_from int_gt best d :: post
    /\ (forall kv, In kv pre -> snd kv < snd (argmax_from int_gt best d))
    /\ (forall kv, In kv post -> snd kv <= snd (argmax_from int_gt best d)).
Proof.
  revert best. induction d as [|[k v] d IH]; intros best.
  - exists [], []. cbn [argmax_from]. repeat split; intros kv [].
  - cbn [argmax_from].
    change (int_gt v (snd best)) with (snd best <? v).
    destruct (snd best <? v) eqn:E.
    + apply Nat.ltb_lt in E.
      destruct (IH (k, v)) as [pre [post [Heq [Hpre Hpost]]]].
      exists (best :: pre), post. split; [now rewrite Heq|]. split; [|exact Hpost].
      intros kv [<-|Hin]; [|now apply Hpre].
      destruct pre as [|p pre].
      * injection Heq as Heq _. rewrite <- Heq. exact E.
      * injection Heq as Heq _. subst p.
        specialize (Hpre (k, v) (or_introl eq_refl)). cbn [snd] in Hpre. lia.
    + apply Nat.ltb_ge in E.
      destruct (IH best) as [pre [post [Heq [Hpre Hpost]]]].
      destruct pre as [|p pre].
      * injection Heq as Heq Hd. exists [], ((k, v) :: d).
        split; [now rewrite <- Heq|]. split; [intros kv []|].
        intros kv [<-|Hin].
        -- rewrite <- Heq. exact E.
        -- apply Hpost. now rewrite <- Hd.
      * injection Heq as Heq Hd. subst p.
        exists (best :: (k, v) :: pre), post.
        split; [cbn [app]; do 2 f_equal; exact Hd|]. split; [|exact Hpost].
        pose proof (Hpre best (or_introl eq_refl)) as Hb.
        intros kv [<-|[<-|Hin]].
        -- exact Hb.
        -- cbn [snd]. lia.
        -- apply Hpre. now right.
Qed.

Lemma score_table_filter (table : dict (list str)) (text : str) :
  score_table table text
  = filter (fun kv => 0 <? snd kv)
      (map (fun kv => (fst kv, keyword_score (snd kv) text)) table).
Proof.
  induction table as [|[k ks] rest IH]; [reflexivity|].
  cbn [score_table map filter fst snd].
  destruct (0 <? keyword_score ks text); now rewrite IH.
Qed.

(** X13. The scores are listed in the order of the keyword table, and the
    lexicon's winner is the first label with the greatest score: every
    label before it in that order has a strictly smaller score and no
    label after it a greater one. *)
Theorem lexicon_winner_is_first_max (text : str) :
  emotion_scores text
  = filter (fun kv => 0 <? snd kv)
      (map (fun kv => (fst kv, keyword_score (snd kv) text)) emotion_keywords)
  /\ (forall label score,
        argmax int_gt (emotion_scores text) = Some (label, score) ->
        exists before after,
          emotion_scores text = before ++ (label, score) :: after
          /\ (forall kv, In kv before -> snd kv < score)
          /\ (forall kv, In kv after -> snd kv <= score)).
Proof.
  split; [apply score_table_filter|].
  intros label score H.
  destruct (emotion_scores text) as [|kv d]; [discriminate H|].
  cbn [argmax] in H. injection H as H.
  destruct (argmax_from_first_max d kv) as [pre [post [Heq [Hpre Hpost]]]].
  rewrite H in Heq, Hpre, Hpost. now exists pre, post.
Qed.

Lemma lexicon_winner_is_first_max_witness :
  exists before after,
    emotion_scores (u "unhappy") = before ++ (u "happy", 1) :: after
    /\ (forall kv, In kv before -> snd kv < 1)
    /\ (forall kv, In kv after -> snd kv <= 1).
Proof.
  apply (proj2 (lexicon_winner_is_first_max (u "unhappy"))).
  vm_compute. reflexivity.
Defined.

(** ** The lexicon's confidence *)

Lemma keyword_score_le (keywords : list str) (text : str) :
  keyword_score keywords text <= List.length keywords.
Proof. unfold keyword_score. apply filter_length_le. Qed.

Lemma score_table_bound (table : dict (list str)) (text label : str)
  (n bound : nat) :
  Forall (fun kv => List.length (snd kv) <= bound) table ->
  In (label, n) (score_table table text) -> n <= bound.
Proof.
  induction table as [|[k ks] rest IH]; cbn [score_table]; [intros _ []|].
  intros Hall. inversion Hall as [|? ? Hk Hrest]; subst. cbn [snd] in Hk.
  destruct (0 <? keyword_score ks text); [|now apply IH].
  intros [[= <- <-]|H]; [|now apply IH].
  pose proof (keyword_score_le ks text). lia.
Qed.

Lemma keyword_lists_checked :
  forallb (fun kv : str * list str => List.length (snd kv) <=? 21)
    emotion_keywords = true.
Proof. vm_compute. reflexivity. Qed.

Lemma keyword_lists_short :
  Forall (fun kv : str * list str => List.length (snd kv) <= 21)
    emotion_keywords.
Proof.
  apply Forall_forall. intros kv Hkv. apply Nat.leb_le.
  exact (proj1 (forallb_forall
                  (fun kv : str * list str => List.length (snd kv) <=? 21)
                  emotion_keywords) keyword_lists_checked kv Hkv).
Qed.

Lemma emotion_scores_range (text label : str) (n : nat) :
  In (label, n) (emotion_scores text) -> In n (seq 1 21).
Proof.
  unfold emotion_scores. intros H.
  pose proof (score_table_positive emotion_keywords text label n H) as Hpos.
  pose proof (score_table_bound emotion_keywords text label n 21
                keyword_lists_short H) as Hle.
  apply in_seq. lia.
Qed.

Lemma confidence_checked :
  forallb (fun n => (0.2 <=? keyword_confidence n)%float
                    && (keyword_confidence n <=? 1)%float
                    && Bool.eqb (keyword_confidence n =? 1)%float (5 <=? n))
    (seq 1 21) = true.
Proof. vm_compute. reflexivity. Qed.

(** X14. Whatever the text, a confidence the lexicon gives lies between
    0.2 and 1.0, and it is 1.0 exactly when five or more keywords of the
    winning label occur. *)
Theorem lexicon_confidence_range (text label : str) (score : nat) :
  In (label, score) (emotion_scores text) ->
  (0.2 <=? keyword_confidence score)%float = true
  /\ (keyword_confidence score <=? 1)%float = true
  /\ ((keyword_confidence score =? 1)%float = true <-> 5 <= score).
Proof.
  intros H. apply emotion_scores_range in H.
  pose proof confidence_checked as C. rewrite forallb_forall in C.
  specialize (C score H).
  apply andb_true_iff in C as [C Ceq]. apply andb_true_iff in C as [Clo Chi].
  split; [exact Clo|]. split; [exact Chi|].
  apply eqb_prop in Ceq. rewrite Ceq. apply Nat.leb_le.
Qed.

Lemma lexicon_confidence_range_witness :
  (0.2 <=? keyword_confidence 2)%float = true
  /\ (keyword_confidence 2 <=? 1)%float = true
  /\ ((keyword_confidence 2 =? 1)%float = true <-> 5 <= 2).
Proof.
  apply (lexicon_confidence_range english_happy (u "happy") 2).
  vm_compute. left. reflexivity.
Defined.

(** ** Keywords inside longer words *)

Lemma contains_trans (a b c : str) :
  contains a b = true -> contains b c = true -> contains a c = true.
Proof.
  rewrite !contains_spec.
  intros [p1 [q1 ->]] [p2 [q2 ->]].
  exists (p2 ++ p1), (q1 ++ q2). now rewrite <- !app_assoc.
Qed.

Lemma in_get {V} (d : dict V) (k : str) (v : V) :
  NoDup (keys d) -> In (k, v) d -> get d k = Some v.
Proof.
  induction d as [|[k' v'] d IH]; cbn [get keys map fst]; [intros _ []|].
  intros Hnd [[= -> ->]|Hin].
  - now rewrite str_eqb_refl.
  - inversion Hnd as [|? ? Hk Hrest]; subst.
    destruct (str_eqb k' k) eqn:E.
    + apply str_eqb_eq in E. subst k'. exfalso. apply Hk.
      apply (in_map fst) in Hin. exact Hin.
    + now apply IH.
Qed.

Lemma keyword_score_pos (keywords : list str) (text keyword : str) :
  In keyword keywords -> contains keyword text = true ->
  0 < keyword_score keywords text.
Proof.
  intros Hin Hc.
  destruct (keyword_score keywords text) eqn:E; [|lia].
  pose proof (proj1 (keyword_score_zero keywords text) E keyword Hin).
  congruence.
Qed.

(** X15. A keyword counts wherever it occurs, also inside a longer word:
    if a keyword of a label is a substring of some string, every text that
    holds that string scores the label. So a text with 'unhappy' scores
    'happy' as well as 'sad'. *)
Theorem keyword_inside_word_counts (text label : str) (keywords : list str)
  (keyword word : str) :
  In (label, keywords) emotion_keywords ->
  In keyword keywords ->
  contains keyword word = true ->
  contains word text = true ->
  exists n, get (emotion_scores text) label = Some n /\ 1 <= n.
Proof.
  intros Hl Hk Hkw Hwt.
  pose proof (contains_trans _ _ _ Hkw Hwt) as Hc.
  pose proof (keyword_score_pos keywords text keyword Hk Hc) as Hpos.
  unfold emotion_scores.
  rewrite (get_score_table _ text label emotion_keywords_nodup).
  rewrite (in_get emotion_keywords label keywords emotion_keywords_nodup Hl).
  apply Nat.ltb_lt in Hpos. rewrite Hpos. eexists. split; [reflexivity|].
  now apply Nat.ltb_lt.
Qed.

Lemma keyword_inside_word_counts_witness :
  exists n, get (emotion_scores (u "so unhappy")) (u "happy") = Some n
            /\ 1 <= n.
Proof.
  apply (keyword_inside_word_counts (u "so unhappy") (u "happy")
           (get_or emotion_keywords (u "happy") []) (u "happy") (u "unhappy"));
    vm_compute; auto 30.
Defined.

(** ** The facial stage *)

(** X16. A facial analysis that cannot be made or that fails (no client
    module, an exception, an image that does not decode, an empty result
    list) leaves no facial signal, and the answer is the one to the same
    request sent without its image. *)
Theorem failed_facial_analysis_is_no_image
  (deepface : option (str -> vision)) (data : request) :
  (deepface = None
   \/ exists img analyze,
        req_image data = Some img /\ deepface = Some analyze
        /\ (analyze img = VisionRaises \/ analyze img = ImgNone
            \/ analyze img = Analyzed (AsList []))) ->
  facial_detection deepface data init = init
  /\ forall lower get_emotion sp,
       detect_emotion lower get_emotion deepface sp data
       = detect_emotion lower get_emotion deepface sp
           {| req_image := None; req_text := req_text data |}.
Proof.
  intros H.
  assert (Hinit : facial_detection deepface data init = init).
  { unfold facial_detection.
    destruct H as [->|[img [analyze [-> [-> [H|[H|H]]]]]]]; try rewrite H;
      try reflexivity.
    now destruct (req_image data). }
  split; [exact Hinit|].
  intros lower get_emotion sp. unfold detect_emotion, run_stages.
  rewrite Hinit. reflexivity.
Qed.

Lemma failed_facial_analysis_is_no_image_witness :
  detect_emotion lower_ascii te_happy None None (face_and_text english_happy)
  = detect_emotion lower_ascii te_happy None None
      {| req_image := None; req_text := Some english_happy |}.
Proof.
  exact (proj2 (failed_facial_analysis_is_no_image None
                  (face_and_text english_happy) (or_introl eq_refl))
           lower_ascii te_happy None).
Defined.

(** X17. When DeepFace gives a non-empty score map, the facial emotion is
    a label of that map, whatever its dominant_emotion entry says; the
    confidence is that label's score, divided by 100 when some score of the
    map exceeds 1.0; and the method is set to 'facial'. *)
Theorem facial_winner_from_scores (analyze : str -> vision) (data : request)
  (img : str) (result : deepface_result) (kv : str * float) (r : dict float)
  (dominant : option str) :
  req_image data = Some img ->
  analyze img = Analyzed result ->
  first_result result = Some (FaceDict (Some (kv :: r)) dominant) ->
  exists label score,
    In (label, score) (kv :: r)
    /\ facial_emotion (facial_detection (Some analyze) data init) = Some label
    /\ facial_confidence (facial_detection (Some analyze) data init)
       = (if (1 <? float_max (snd kv) (values r))%float
          then (score / 100)%float else score)
    /\ detection_method (facial_detection (Some analyze) data init)
       = Some (u "facial").
Proof.
  intros Himg Han Hres. unfold facial_detection. rewrite Himg, Han, Hres.
  pose proof (argmax_from_in float_gt r kv) as Hin.
  destruct (argmax_from float_gt kv r) as [label score].
  exists label, score. split; [|now repeat split].
  destruct Hin as [<-|Hin]; [now left | now right].
Qed.

Lemma facial_winner_from_scores_witness :
  exists label score,
    In (label, score) face_scores
    /\ facial_emotion
         (facial_detection
            (Some (fun _ => Analyzed (AsOne (FaceDict (Some face_scores) None))))
            image_only init) = Some label
    /\ facial_confidence
         (facial_detection
            (Some (fun _ => Analyzed (AsOne (FaceDict (Some face_scores) None))))
            image_only init)
       = (if (1 <? float_max 0.5 (values (tl face_scores)))%float
          then (score / 100)%float else score)
    /\ detection_method
         (facial_detection
            (Some (fun _ => Analyzed (AsOne (FaceDict (Some face_scores) None))))
            image_only init) = Some (u "facial").
Proof.
  exact (facial_winner_from_scores
           (fun _ => Analyzed (AsOne (FaceDict (Some face_scores) None)))
           image_only photo _ _ _ None eq_refl eq_refl eq_refl).
Defined.

(** ** Instances of the further properties *)

Lemma text_signal_answers_200_witness :
  exists b,
    detect_emotion lower_ascii te_happy (Some face_happy) None
      (face_and_text english_happy) = Ok200 b.
Proof.
  assert (Hrun : run_stages lower_ascii te_happy (Some face_happy)
                   (face_and_text english_happy)
                 = (fst (run_stages lower_ascii te_happy (Some face_happy)
                           (face_and_text english_happy)), None))
    by (vm_compute; reflexivity).
  assert (Ht : truthy (text_emotion
                         (fst (run_stages lower_ascii te_happy (Some face_happy)
                                 (face_and_text english_happy)))) = true)
    by (vm_compute; reflexivity).
  destruct (text_signal_answers_200 lower_ascii te_happy (Some face_happy) None
              (face_and_text english_happy) _ Hrun Ht) as [e [l [_ [_ H]]]].
  eexists. exact H.
Defined.

Lemma text_only_answer_witness :
  match detect_emotion lower_ascii te_happy None None (text_only english_happy)
  with
  | Ok200 b => r_method b = Some (u "text")
  | _ => False
  end.
Proof.
  destruct (detect_emotion lower_ascii te_happy None None
              (text_only english_happy)) as [b|msg dbg|e] eqn:E.
  - exact (proj1 (text_only_answer lower_ascii te_happy None None
                    english_happy b E)).
  - vm_compute in E. discriminate E.
  - vm_compute in E. discriminate E.
Defined.

Lemma answer_well_formed_witness :
  match detect_emotion lower_ascii te_zero None None (text_only hindi_happy)
  with
  | Ok200 b => r_language b = u "hi" \/ r_language b = u "en"
  | _ => False
  end.
Proof.
  destruct (detect_emotion lower_ascii te_zero None None
              (text_only hindi_happy)) as [b|msg dbg|e] eqn:E.
  - exact (proj1 (answer_well_formed lower_ascii te_zero None None
                    (text_only hindi_happy) b E)).
  - vm_compute in E. discriminate E.
  - vm_compute in E. discriminate E.
Defined.

Lemma fused_confidence_is_max_witness :
  (facial_confidence both_signals <=? snd (fst (fuse both_signals)))%float
  = true.
Proof.
  exact (proj1 (fused_confidence_is_max both_signals eq_refl eq_refl eq_refl)).
Defined.

Lemma classifier_exception_is_400_witness :
  detect_emotion lower_ascii te_raises (Some face_happy) None
    (face_and_text english_happy)
  = Err400 (u "Text analysis failed. Please try again.")
      (Some (u "LookupError", u "Traceback (most recent call last)")).
Proof.
  apply (classifier_exception_is_400 lower_ascii te_raises (Some face_happy)
           None (face_and_text english_happy) english_happy);
    vm_compute; reflexivity.
Defined.

(** ** Text decided by the lexicon, end to end *)

Lemma score_table_keys_in (table : dict (list str)) (text label : str)
  (n : nat) :
  In (label, n) (score_table table text) -> In label (keys table).
Proof.
  induction table as [|[k ks] rest IH]; cbn [score_table keys map fst];
    [intros []|].
  destruct (0 <? keyword_score ks text).
  - intros [[= <- _]|H]; [now left | right; now apply IH].
  - intros H. right. now apply IH.
Qed.

Lemma labels_checked : forallb nonempty (keys emotion_keywords) = true.
Proof. vm_compute. reflexivity. Qed.

Lemma winner_nonempty (text label : str) (score : nat) :
  argmax int_gt (emotion_scores text) = Some (label, score) ->
  nonempty label = true.
Proof.
  unfold emotion_scores. intros H.
  pose proof (argmax_in int_gt (score_table emotion_keywords text)
                (label, score) H) as Hin.
  pose proof (score_table_keys_in emotion_keywords text label score Hin) as Hk.
  exact (proj1 (forallb_forall nonempty (keys emotion_keywords))
           labels_checked label Hk).
Qed.

Section LexiconDecides.

Variable lower : str -> str.
Variable get_emotion : str -> te_result.
Variable deepface : option (str -> vision).
Variable sp : option (str -> search_result).

Hypothesis lower_devanagari :
  forall s, has_devanagari (lower s) = has_devanagari s.

(** X18. A request with Hindi text and no image, in whose text a keyword
    occurs, is answered 200 with language 'hi', method 'text', the
    lexicon's winner as emotion and text emotion, its mood, and the
    lexicon's confidence; the classifier is not asked. *)
Theorem hindi_text_answer (raw label : str) (score : nat) :
  has_devanagari raw = true ->
  argmax int_gt (emotion_scores (strip (lower raw))) = Some (label, score) ->
  detect_emotion lower get_emotion deepface sp
    {| req_image := None; req_text := Some raw |}
  = Ok200 {| r_emotion := lower label;
             r_mood := mood_of lower label;
             r_language := u "hi";
             r_playlists :=
               get_spotify_playlists sp (mood_of lower label) (u "hi");
             r_method := Some (u "text");
             r_confidence := keyword_confidence score;
             r_facial_emotion := None;
             r_facial_confidence := 0%float;
             r_text_emotion := Some label;
             r_text_confidence := keyword_confidence score |}.
Proof.
  intros Hdev Hwin.
  pose proof (winner_nonempty _ _ _ Hwin) as Hne.
  assert (Hrun : run_stages lower get_emotion deepface
                   {| req_image := None; req_text := Some raw |}
                 = (set_text init label (keyword_confidence score) (u "hi"),
                    None)).
  { unfold run_stages, text_detection. cbn [req_text].
    rewrite (devanagari_text_passes_guard raw Hdev).
    unfold text_analysis, detect_language.
    rewrite (cleaned_text_script lower lower_devanagari raw), Hdev.
    unfold keywords_only. rewrite Hwin. reflexivity. }
  unfold detect_emotion. rewrite Hrun.
  rewrite fuse_text_only by (try reflexivity; exact Hne).
  exact (respond_bound lower sp
           (set_text init label (keyword_confidence score) (u "hi"))
           label (u "hi") (keyword_confidence score) (Some (u "text"))
           Hne eq_refl).
Qed.

(** X19. On text that is not Hindi and on which the classifier does not
    raise, two or more keywords of the lexicon's winner always decide:
    whatever scores the classifier gives, the text signal is the winner
    with the lexicon's confidence, and the stage goes on. *)
Theorem two_keywords_decide (data : request) (raw label : str) (score : nat)
  (st : locals) (text_emotions : dict float) :
  req_text data = Some raw ->
  nonempty (strip raw) = true ->
  has_devanagari (strip (lower raw)) = false ->
  get_emotion raw = TeScores text_emotions ->
  argmax int_gt (emotion_scores (strip (lower raw))) = Some (label, score) ->
  2 <= score ->
  text_detection lower get_emotion data st
  = (set_text st label (keyword_confidence score) (u "en"), None).
Proof.
  intros Htext Hguard Hlang Hte Hwin Hscore.
  unfold text_detection. rewrite Htext, Hguard.
  unfold text_analysis, detect_language. rewrite Hlang, Hte.
  assert (K : keywords_only st (emotion_scores (strip (lower raw))) (u "en")
              = (set_text st label (keyword_confidence score) (u "en"), None)).
  { unfold keywords_only. now rewrite Hwin. }
  destruct text_emotions as [|kv r]; [exact K|].
  destruct (existsb float_truthy (values (kv :: r))); [|exact K].
  unfold combine. destruct (argmax_from float_gt kv r) as [te_emotion te_score].
  rewrite Hwin. apply Nat.leb_le in Hscore. now rewrite Hscore.
Qed.

End LexiconDecides.

Lemma hindi_text_answer_witness :
  exists b,
    detect_emotion lower_ascii te_raises None None (text_only hindi_happy)
    = Ok200 b
    /\ r_emotion b = u "happy" /\ r_language b = u "hi".
Proof.
  eexists. split.
  - apply (hindi_text_answer lower_ascii te_raises None None
             lower_ascii_devanagari hindi_happy (u "happy") 2);
      vm_compute; reflexivity.
  - split; vm_compute; reflexivity.
Defined.

Lemma two_keywords_decide_witness :
  text_detection lower_ascii te_happy (text_only english_happy) init
  = (set_text init (u "happy") (keyword_confidence 2) (u "en"), None).
Proof.
  apply (two_keywords_decide lower_ascii te_happy (text_only english_happy)
           english_happy (u "happy") 2 init
           [ (u "Happy", 0.5%float); (u "Angry", 0%float);
             (u "Surprise", 0.25%float); (u "Sad", 0%float);
             (u "Fear", 0.25%float) ]);
    first [ vm_compute; reflexivity | lia ].
Defined.

(** ** Bodies with fields that are not strings *)

Lemma request_of_same (lower : str -> str) (get_emotion : str -> te_result)
  (deepface : option (str -> vision)) (sp : option (str -> search_result))
  (data : json_body) :
  j_text data <> Some JOther ->
  facial_detection_json deepface (j_image data) init
  = facial_detection deepface (request_of data) init
  /\ detect_emotion_json lower get_emotion deepface sp data
     = detect_emotion lower get_emotion deepface sp (request_of data).
Proof.
  destruct data as [im tx]. unfold request_of. cbn [j_image j_text].
  intros Htext.
  assert (Hf : facial_detection_json deepface im init
               = facial_detection deepface
                   {| req_image := string_of im; req_text := string_of tx |}
                   init).
  { unfold facial_detection_json, facial_detection. cbn [req_image].
    destruct im as [[img|]|]; cbn [string_of]; try reflexivity.
    now destruct deepface. }
  split; [exact Hf|].
  unfold detect_emotion_json, detect_emotion, run_stages, finish.
  cbn [j_image j_text]. rewrite Hf.
  destruct tx as [[raw|]|]; cbn [string_of].
  - unfold text_detection. cbn [req_text]. reflexivity.
  - exfalso. now apply Htext.
  - unfold text_detection. cbn [req_text]. reflexivity.
Qed.

(** X3. For every posted JSON object, whatever its two fields hold, the
    handler lets an exception out in exactly two cases: the text field is
    there and is not a string (the AttributeError of line 106, outside the
    [try]); or the text stage is skipped (no text field, or a string
    without a code point that is not whitespace) and the facial stage
    found an emotion (the unbound [language] of line 205). Otherwise the
    answer is a 200 or a 400. *)
Theorem exception_escapes_iff (lower : str -> str)
  (get_emotion : str -> te_result) (deepface : option (str -> vision))
  (sp : option (str -> search_result)) (data : json_body) (e : str) :
  detect_emotion_json lower get_emotion deepface sp data = Crash500 e
  <-> (e = u "AttributeError" /\ j_text data = Some JOther)
      \/ (e = u "UnboundLocalError"
          /\ (j_text data = None
              \/ exists raw, j_text data = Some (JString raw)
                             /\ existsb nonspace raw = false)
          /\ truthy (facial_emotion
                       (facial_detection_json deepface (j_image data) init))
             = true).
Proof.
  destruct (j_text data) as [[raw|]|] eqn:Htext.
  - assert (Hn : j_text data <> Some JOther) by congruence.
    destruct (request_of_same lower get_emotion deepface sp data Hn)
      as [Hf Hd].
    rewrite Hd, Hf, crash_iff_strings.
    unfold text_skipped, request_of. cbn [req_text]. rewrite Htext.
    cbn [string_of]. rewrite nonempty_strip. split.
    + intros [-> [Hskip Hface]]. right. split; [reflexivity|].
      split; [|exact Hface]. right. exists raw. split; [reflexivity|].
      now destruct (existsb nonspace raw).
    + intros [[_ H]|[-> [[H|[raw' [[= <-] H]]] Hface]]]; try discriminate H.
      split; [reflexivity|]. split; [now rewrite H | exact Hface].
  - unfold detect_emotion_json. rewrite Htext. split.
    + intros [= <-]. now left.
    + intros [[-> _]|[_ [[H|[raw [H _]]] _]]];
        [reflexivity | discriminate H | discriminate H].
  - assert (Hn : j_text data <> Some JOther) by congruence.
    destruct (request_of_same lower get_emotion deepface sp data Hn)
      as [Hf Hd].
    rewrite Hd, Hf, crash_iff_strings.
    unfold text_skipped, request_of. cbn [req_text]. rewrite Htext.
    cbn [string_of]. split.
    + intros [-> [_ Hface]]. right. split; [reflexivity|].
      split; [now left | exact Hface].
    + intros [[_ H]|[-> [_ Hface]]]; [discriminate H|].
      now repeat split.
Qed.
